(** * The per-participant EEG pipeline: a shallow embedding

    The development follows the two source files of the repository:

    - [pipeline/io.py]: the helpers [check_participant_input] and
      [is_nested_list] that turn a per-participant override into one
      entry per participant;
    - [step_mne/participant.py]: [participant_pipeline], the
      orchestration of one participant's recording, with its restart
      once bad channels have been detected automatically.

    Python values are an inductive type, dictionaries are association
    lists in insertion order, exceptions are an error type, and the
    stateful part of the pipeline runs in a state-and-error monad whose
    state holds the outside world of the collaborators (MNE, pandas,
    the file system) and the store of configuration dictionaries. *)

From Stdlib Require Import ZArith QArith String Ascii List Bool Lia.
From stdpp Require Import base list.
Import ListNotations.

Local Open Scope string_scope.
Local Open Scope list_scope.

(** ** Python values *)

(** The values that configuration options and overrides range over.  A
    float is carried by the rational it denotes; the modelled code does
    no float arithmetic.  Dictionaries are keyed by strings (participant
    ids, trigger labels, option names) and keep insertion order. *)
#[warnings="-register-all"]
Inductive value : Type :=
| VNone
| VBool (b : bool)
| VInt (z : Z)
| VFloat (q : Q)
| VStr (s : string)
| VList (elems : list value)
| VTuple (elems : list value)
| VDict (items : list (string * value)).

(** A dictionary with string keys, in insertion order. *)
Abbreviation dict_of V := (list (string * V)) (only parsing).
Abbreviation dict := (list (string * value)) (only parsing).

(** Exceptions.  [AssertionError] carries its message; [LibraryError]
    stands for whatever a collaborator raises. *)
Inductive exn : Type :=
| AssertionError (msg : string)
| TypeError
| AttributeError
| IndexError
| LibraryError (descr : string).

Inductive result (A : Type) : Type :=
| Ok (a : A)
| Raise (e : exn).
Arguments Ok {A} a.
Arguments Raise {A} e.

Definition rbind {A B} (r : result A) (k : A -> result B) : result B :=
  match r with
  | Ok a => k a
  | Raise e => Raise e
  end.

Declare Scope res_scope.
Delimit Scope res_scope with res.
Notation "x <- c1 ;; c2" := (rbind c1 (fun x => c2))
  (at level 100, c1 at next level, right associativity) : res_scope.

(** ** Dictionaries *)

(** [d[k] = v]: an existing key keeps its position, a new key goes last. *)
Fixpoint dict_set {V} (k : string) (v : V) (d : dict_of V) : dict_of V :=
  match d with
  | [] => [(k, v)]
  | (k', v') :: rest =>
      if String.eqb k' k then (k', v) :: rest
      else (k', v') :: dict_set k v rest
  end.

Fixpoint dict_get {V} (k : string) (d : dict_of V) : option V :=
  match d with
  | [] => None
  | (k', v') :: rest => if String.eqb k' k then Some v' else dict_get k rest
  end.

Definition dict_keys {V} (d : dict_of V) : list string := map fst d.
Definition dict_values {V} (d : dict_of V) : list V := map snd d.

(** [x in xs] for a list of strings. *)
Definition str_in (x : string) (xs : list string) : bool :=
  existsb (String.eqb x) xs.

(** ** [pipeline/io.py] *)

Definition isinstance_list (v : value) : bool :=
  match v with VList _ => true | _ => false end.

Definition isinstance_dict (v : value) : bool :=
  match v with VDict _ => true | _ => false end.

Definition isinstance_str (v : value) : bool :=
  match v with VStr _ => true | _ => false end.

(** [is_nested_list]: a list that contains at least one other list. *)
Definition is_nested_list (input : value) : bool :=
  match input with
  | VList elems => existsb isinstance_list elems
  | _ => false
  end.

(** [{id: None for id in participant_ids}] *)
Definition none_dict (participant_ids : list string) : dict :=
  fold_left (fun d id => dict_set id VNone d) participant_ids [].

(** The loop [for id, values in input.items()] of the dict branch. *)
Fixpoint assign_values (participant_ids : list string) (items : dict)
    (participant_dict : dict) : result dict :=
  match items with
  | [] => Ok participant_dict
  | (id, values) :: rest =>
      if str_in id participant_ids
      then assign_values participant_ids rest (dict_set id values participant_dict)
      else Raise (AssertionError ("Participant ID " ++ id ++ " is not in vhdr_files"))
  end.

(** [check_participant_input].  The result is the sequence of
    per-participant entries: the values view of [participant_dict] in
    the dict branch, the input list itself in the nested-list branch,
    and [[input] * len(participant_ids)] otherwise. *)
Definition check_participant_input (input : value) (participant_ids : list string)
    : result (list value) :=
  match input with
  | VDict items =>
      (participant_dict <- assign_values participant_ids items (none_dict participant_ids) ;;
       Ok (dict_values participant_dict))%res
  | _ =>
      if is_nested_list input then
        match input with
        | VList elems =>
            if Nat.eqb (length elems) (length participant_ids)
            then Ok elems
            else Raise (AssertionError "Input lists must have the same length")
        | _ => Raise TypeError
        end
      else Ok (replicate (length participant_ids) input)
  end.

(** ** Strings and paths *)

(** [s.rfind(c)]: the highest index of [c] in [s], or -1. *)
Fixpoint rfind (c : ascii) (s : string) : Z :=
  match s with
  | EmptyString => (-1)%Z
  | String x rest =>
      let i := rfind c rest in
      if (0 <=? i)%Z then (i + 1)%Z
      else if Ascii.eqb x c then 0%Z else (-1)%Z
  end.

(** [s[i:]] *)
Fixpoint slice_from (i : nat) (s : string) : string :=
  match i, s with
  | O, _ => s
  | S _, EmptyString => EmptyString
  | S j, String _ rest => slice_from j rest
  end.

(** [os.path.basename] on POSIX: [i = p.rfind('/') + 1; return p[i:]]. *)
Definition basename (p : string) : string :=
  slice_from (Z.to_nat (rfind "/" p + 1)) p.

(** [s.split(sep)] for a separator of one character. *)
Fixpoint split (sep : ascii) (s : string) : list string :=
  match s with
  | EmptyString => [EmptyString]
  | String x rest =>
      if Ascii.eqb x sep then EmptyString :: split sep rest
      else match split sep rest with
           | piece :: pieces => String x piece :: pieces
           | [] => [String x EmptyString]
           end
  end.

(** [l[0]] *)
Definition index0 {A} (l : list A) : result A :=
  match l with
  | x :: _ => Ok x
  | [] => Raise IndexError
  end.

(** [participant_id = path.basename(vhdr_file).split('.')[0]] *)
Definition get_participant_id (vhdr_file : value) : result string :=
  match vhdr_file with
  | VStr p => index0 (split "." (basename p))
  | _ => Raise TypeError
  end.

(** The part of a string before its first occurrence of [c] (all of it
    when [c] does not occur): the reading of "truncated before its first
    '.'" that the participant identifier is compared with. *)
Fixpoint truncate_before (c : ascii) (s : string) : string :=
  match s with
  | EmptyString => EmptyString
  | String x rest => if Ascii.eqb x c then EmptyString else String x (truncate_before c rest)
  end.

Fixpoint occurs (c : ascii) (s : string) : bool :=
  match s with
  | EmptyString => false
  | String x rest => Ascii.eqb x c || occurs c rest
  end.

(** ** [step_mne/participant.py]: arguments and configuration *)

(** The keyword parameters of [participant_pipeline]. *)
Record args : Type := {
  vhdr_file : value;
  log_file : value;
  ocular_correction : value;
  bad_channels : value;
  skip_log_rows : value;
  skip_log_conditions : value;
  downsample_sfreq : value;
  veog_channels : value;
  heog_channels : value;
  montage : value;
  highpass_freq : value;
  lowpass_freq : value;
  epochs_tmin : value;
  epochs_tmax : value;
  baseline : value;
  triggers : value;
  reject_peak_to_peak : value;
  reject_flat : value;
  components : value;
  condition_cols : value;
  clean_dir : value;
  epochs_dir : value;
  trials_dir : value;
  evokeds_dir : value;
  export_dir : value;
  to_df : value
}.

(** The defaults of the signature. *)
Definition default_args : args := {|
  vhdr_file := VNone;
  log_file := VNone;
  ocular_correction := VStr "fastica";
  bad_channels := VStr "auto";
  skip_log_rows := VNone;
  skip_log_conditions := VNone;
  downsample_sfreq := VNone;
  veog_channels := VStr "auto";
  heog_channels := VStr "auto";
  montage := VStr "easycap-M1";
  highpass_freq := VFloat (1 # 10);
  lowpass_freq := VFloat (30 # 1);
  epochs_tmin := VFloat (-1 # 2);
  epochs_tmax := VFloat (3 # 2);
  baseline := VTuple [VFloat (-2 # 10); VFloat (0 # 1)];
  triggers := VNone;
  reject_peak_to_peak := VFloat (200 # 1);
  reject_flat := VFloat (1 # 1);
  components :=
    VDict [("name", VList []); ("tmin", VList []); ("tmax", VList []); ("roi", VList [])];
  condition_cols := VNone;
  clean_dir := VNone;
  epochs_dir := VNone;
  trials_dir := VNone;
  evokeds_dir := VNone;
  export_dir := VNone;
  to_df := VBool true
|}.

(** [locals()] on the first line of the function: one entry per
    parameter, in the order of the signature. *)
Definition locals (a : args) : dict := [
  ("vhdr_file", vhdr_file a);
  ("log_file", log_file a);
  ("ocular_correction", ocular_correction a);
  ("bad_channels", bad_channels a);
  ("skip_log_rows", skip_log_rows a);
  ("skip_log_conditions", skip_log_conditions a);
  ("downsample_sfreq", downsample_sfreq a);
  ("veog_channels", veog_channels a);
  ("heog_channels", heog_channels a);
  ("montage", montage a);
  ("highpass_freq", highpass_freq a);
  ("lowpass_freq", lowpass_freq a);
  ("epochs_tmin", epochs_tmin a);
  ("epochs_tmax", epochs_tmax a);
  ("baseline", baseline a);
  ("triggers", triggers a);
  ("reject_peak_to_peak", reject_peak_to_peak a);
  ("reject_flat", reject_flat a);
  ("components", components a);
  ("condition_cols", condition_cols a);
  ("clean_dir", clean_dir a);
  ("epochs_dir", epochs_dir a);
  ("trials_dir", trials_dir a);
  ("evokeds_dir", evokeds_dir a);
  ("export_dir", export_dir a);
  ("to_df", to_df a)
].

Definition parameter_names : list string := dict_keys (locals default_args).

(** Calling [participant_pipeline] with a dictionary unpacked into
    keyword arguments: a key that is no parameter is a [TypeError], a
    parameter without a key takes its default. *)
Definition bind_parameters (kwargs : dict) : result args :=
  let arg (name : string) (field : args -> value) : value :=
    match dict_get name kwargs with
    | Some v => v
    | None => field default_args
    end in
  if forallb (fun k => str_in k parameter_names) (dict_keys kwargs) then
    Ok {|
      vhdr_file := arg "vhdr_file" vhdr_file;
      log_file := arg "log_file" log_file;
      ocular_correction := arg "ocular_correction" ocular_correction;
      bad_channels := arg "bad_channels" bad_channels;
      skip_log_rows := arg "skip_log_rows" skip_log_rows;
      skip_log_conditions := arg "skip_log_conditions" skip_log_conditions;
      downsample_sfreq := arg "downsample_sfreq" downsample_sfreq;
      veog_channels := arg "veog_channels" veog_channels;
      heog_channels := arg "heog_channels" heog_channels;
      montage := arg "montage" montage;
      highpass_freq := arg "highpass_freq" highpass_freq;
      lowpass_freq := arg "lowpass_freq" lowpass_freq;
      epochs_tmin := arg "epochs_tmin" epochs_tmin;
      epochs_tmax := arg "epochs_tmax" epochs_tmax;
      baseline := arg "baseline" baseline;
      triggers := arg "triggers" triggers;
      reject_peak_to_peak := arg "reject_peak_to_peak" reject_peak_to_peak;
      reject_flat := arg "reject_flat" reject_flat;
      components := arg "components" components;
      condition_cols := arg "condition_cols" condition_cols;
      clean_dir := arg "clean_dir" clean_dir;
      epochs_dir := arg "epochs_dir" epochs_dir;
      trials_dir := arg "trials_dir" trials_dir;
      evokeds_dir := arg "evokeds_dir" evokeds_dir;
      export_dir := arg "export_dir" export_dir;
      to_df := arg "to_df" to_df
    |}
  else Raise TypeError.

(** The arguments [a] with another [bad_channels]. *)
Definition with_bad_channels (v : value) (a : args) : args := {|
  vhdr_file := vhdr_file a;
  log_file := log_file a;
  ocular_correction := ocular_correction a;
  bad_channels := v;
  skip_log_rows := skip_log_rows a;
  skip_log_conditions := skip_log_conditions a;
  downsample_sfreq := downsample_sfreq a;
  veog_channels := veog_channels a;
  heog_channels := heog_channels a;
  montage := montage a;
  highpass_freq := highpass_freq a;
  lowpass_freq := lowpass_freq a;
  epochs_tmin := epochs_tmin a;
  epochs_tmax := epochs_tmax a;
  baseline := baseline a;
  triggers := triggers a;
  reject_peak_to_peak := reject_peak_to_peak a;
  reject_flat := reject_flat a;
  components := components a;
  condition_cols := condition_cols a;
  clean_dir := clean_dir a;
  epochs_dir := epochs_dir a;
  trials_dir := trials_dir a;
  evokeds_dir := evokeds_dir a;
  export_dir := export_dir a;
  to_df := to_df a
|}.

(** [v is None], [v == s] and [v != s] for a string literal [s]. *)
Definition is_None (v : value) : bool :=
  match v with VNone => true | _ => false end.

Definition eq_str (v : value) (s : string) : bool :=
  match v with VStr t => String.eqb t s | _ => false end.

Definition ne_str (v : value) (s : string) : bool := negb (eq_str v s).

(** [l + v] for a list [l]: concatenation when [v] is a list. *)
Definition list_add (l : list value) (v : value) : result (list value) :=
  match v with
  | VList l' => Ok (l ++ l')
  | _ => Raise TypeError
  end.

(** ** Collaborators *)

(** A collaborator acts on the outside world (the MNE objects it
    mutates in place, pandas tables, the file system) and returns or
    raises. *)
Definition effect (world A : Type) : Type := world -> world * result A.

(** What [participant_pipeline] imports and calls: the built-in
    conversions, [os.path.isfile], MNE, and the helpers and savers of
    the package.  Functions keep their names; a method [obj.m] is
    [obj_m]. *)
Class Collaborators : Type := {
  world : Type;
  raw_t : Type;
  events_t : Type;
  epochs_t : Type;
  dataframe : Type;
  evokeds_t : Type;
  bad_ixs_t : Type;
  builtin_int : value -> result Z;
  builtin_float : value -> result value;
  path_isfile : value -> effect world bool;
  read_raw_brainvision : value -> effect world raw_t;
  raw_resample : raw_t -> value -> effect world unit;
  add_heog_veog : raw_t -> value -> value -> effect world raw_t;
  apply_montage : raw_t -> value -> effect world unit;
  raw_info_bads : raw_t -> effect world (list value);
  raw_set_info_bads : raw_t -> list value -> effect world unit;
  raw_interpolate_bads : raw_t -> effect world unit;
  raw_set_eeg_reference : raw_t -> string -> effect world unit;
  correct_besa : raw_t -> value -> effect world unit;
  correct_ica : raw_t -> value -> effect world unit;
  raw_filter : raw_t -> value -> value -> effect world unit;
  save_clean : raw_t -> value -> string -> effect world unit;
  events_from_annotations : raw_t -> string -> effect world (events_t * dict_of Z);
  Epochs : raw_t -> events_t -> dict_of Z -> value -> value -> value -> effect world epochs_t;
  epochs_crop : epochs_t -> value -> value -> bool -> effect world unit;
  read_log : value -> value -> value -> effect world dataframe;
  epochs_set_metadata : epochs_t -> dataframe -> effect world unit;
  epochs_metadata_insert : epochs_t -> Z -> string -> string -> effect world unit;
  get_bads : epochs_t -> value -> value -> effect world (bad_ixs_t * list string);
  compute_single_trials : epochs_t -> value -> bad_ixs_t -> effect world dataframe;
  save_epochs : epochs_t -> value -> string -> value -> effect world unit;
  save_df : dataframe -> value -> string -> string -> effect world unit;
  save_montage : epochs_t -> value -> effect world unit;
  compute_evokeds : epochs_t -> value -> bad_ixs_t -> string -> effect world (evokeds_t * dataframe);
  save_evokeds : evokeds_t -> dataframe -> value -> string -> value -> effect world unit
}.

(** ** The pipeline monad *)

(** How a computation ends.  [Unfinished] is the end of a run that was
    given too small a call depth. *)
Inductive outcome (A : Type) : Type :=
| Returns (a : A)
| Raises (e : exn)
| Unfinished.
Arguments Returns {A} a.
Arguments Raises {A} e.
Arguments Unfinished {A}.

Section Pipeline.

Context `{C : Collaborators}.

(** The state of a run: the collaborators' world, the store of
    configuration dictionaries (a reference is an index), and the
    record of the invocations of [participant_pipeline] so far. *)
Record state : Type := {
  st_world : world;
  st_heap : list dict;
  st_calls : list args
}.

Definition M (A : Type) : Type := state -> state * outcome A.

Definition ret {A} (a : A) : M A := fun st => (st, Returns a).

Definition bind {A B} (m : M A) (k : A -> M B) : M B :=
  fun st =>
    match m st with
    | (st', Returns a) => k a st'
    | (st', Raises e) => (st', Raises e)
    | (st', Unfinished) => (st', Unfinished)
    end.

(** A collaborator call: it sees and changes the world only. *)
Definition call {A} (c : effect world A) : M A :=
  fun st =>
    let (w, r) := c (st_world st) in
    let st' := {| st_world := w; st_heap := st_heap st; st_calls := st_calls st |} in
    match r with
    | Ok a => (st', Returns a)
    | Raise e => (st', Raises e)
    end.

(** A pure step that returns or raises. *)
Definition lift {A} (r : result A) : M A :=
  fun st =>
    match r with
    | Ok a => (st, Returns a)
    | Raise e => (st, Raises e)
    end.

(** A new dictionary object in the store. *)
Definition new_dict (d : dict) : M nat :=
  fun st =>
    ({| st_world := st_world st; st_heap := st_heap st ++ [d]; st_calls := st_calls st |},
     Returns (length (st_heap st))).

(** [ref[k] = v]: the object is updated in place. *)
Definition dict_store (ref : nat) (k : string) (v : value) : M unit :=
  fun st =>
    ({| st_world := st_world st;
        st_heap := alter (dict_set k v) ref (st_heap st);
        st_calls := st_calls st |},
     Returns tt).

(** Reading the object behind a reference. *)
Definition dict_load (ref : nat) : M dict :=
  fun st =>
    match st_heap st !! ref with
    | Some d => (st, Returns d)
    | None => (st, Raises (LibraryError "no such object"))
    end.

(** The record of invocations. *)
Definition record_call (a : args) : M unit :=
  fun st =>
    ({| st_world := st_world st; st_heap := st_heap st; st_calls := st_calls st ++ [a] |},
     Returns tt).

Declare Scope pipe_scope.
Delimit Scope pipe_scope with pipe.
Notation "x <- c1 ;; c2" := (bind c1 (fun x => c2))
  (at level 100, c1 at next level, right associativity) : pipe_scope.
Notation "c1 ;; c2" := (bind c1 (fun _ => c2))
  (at level 100, right associativity) : pipe_scope.

Local Open Scope pipe_scope.

(** ** The stages of one pass *)

(** Lines 51-56: downsampling, when a target rate is given. *)
Definition downsample (raw : raw_t) (downsample_sfreq : value) : M unit :=
  if negb (is_None downsample_sfreq) then
    downsample_sfreq <- lift (builtin_float downsample_sfreq) ;;
    call (raw_resample raw downsample_sfreq)
  else ret tt.

(** Lines 64-69: marking and interpolating the given bad channels.  The
    stage returns the local variable [bad_channels], which it rebinds to
    a one-element list when it is a string. *)
Definition interpolate_bad_channels (raw : raw_t) (bad_channels : value) : M value :=
  if negb (is_None bad_channels) && ne_str bad_channels "auto" then
    let bad_channels :=
      if isinstance_str bad_channels then VList [bad_channels] else bad_channels in
    bads <- call (raw_info_bads raw) ;;
    bads <- lift (list_add bads bad_channels) ;;
    call (raw_set_info_bads raw bads) ;;
    call (raw_interpolate_bads raw) ;;
    ret bad_channels
  else ret bad_channels.

(** Lines 74-79: ocular correction, from a BESA file or by ICA. *)
Definition correct_ocular (raw : raw_t) (ocular_correction : value) : M unit :=
  if negb (is_None ocular_correction) then
    is_file <- call (path_isfile ocular_correction) ;;
    if is_file then call (correct_besa raw ocular_correction)
    else call (correct_ica raw ocular_correction)
  else ret tt.

(** [{key: int(value) for key, value in triggers.items()}] *)
Fixpoint int_values (items : dict) (acc : dict_of Z) : result (dict_of Z) :=
  match items with
  | [] => Ok acc
  | (key, v) :: rest =>
      (z <- builtin_int v ;;
       int_values rest (dict_set key z acc))%res
  end.

Definition coerce_triggers (triggers : value) : result (dict_of Z) :=
  match triggers with
  | VDict items => int_values items []
  | _ => Raise AttributeError
  end.

(** Lines 88-93: the events and the codes of the triggers. *)
Definition resolve_events (raw : raw_t) (triggers : value) : M (events_t * dict_of Z) :=
  found <- call (events_from_annotations raw "Stimulus") ;;
  let '(events, event_id) := found in
  if negb (is_None triggers) then
    triggers <- lift (coerce_triggers triggers) ;;
    ret (events, triggers)
  else ret (events, event_id).

(** Lines 95-100: epoching with baseline correction, then dropping the
    last sample ([include_tmax=False]). *)
Definition extract_epochs (raw : raw_t) (events : events_t) (event_id : dict_of Z)
    (a : args) : M epochs_t :=
  epochs <- call (Epochs raw events event_id (epochs_tmin a) (epochs_tmax a) (baseline a)) ;;
  call (epochs_crop epochs (epochs_tmin a) (epochs_tmax a) false) ;;
  ret epochs.

(** Lines 103-105: the behavioural log becomes the metadata. *)
Definition fuse_metadata (epochs : epochs_t) (participant_id : string) (a : args) : M unit :=
  metadata <- call (read_log (log_file a) (skip_log_rows a) (skip_log_conditions a)) ;;
  call (epochs_set_metadata epochs metadata) ;;
  call (epochs_metadata_insert epochs 0 "participant_id" participant_id).

(** The local variables that the rest of the function reads after
    line 108. *)
Record frame : Type := {
  fr_config : nat;
  fr_participant_id : string;
  fr_bad_channels : value;
  fr_epochs : epochs_t;
  fr_bad_ixs : bad_ixs_t;
  fr_auto_channels : list string
}.

(** Lines 45-108: from the participant identifier to the detection of
    bad epochs and channels.  Console output ([print]) is left out. *)
Definition stages_until_detection (a : args) (config : nat) : M frame :=
  participant_id <- lift (get_participant_id (vhdr_file a)) ;;
  raw <- call (read_raw_brainvision (vhdr_file a)) ;;
  downsample raw (downsample_sfreq a) ;;
  raw <- call (add_heog_veog raw (heog_channels a) (veog_channels a)) ;;
  call (apply_montage raw (montage a)) ;;
  bad_channels <- interpolate_bad_channels raw (bad_channels a) ;;
  call (raw_set_eeg_reference raw "average") ;;
  correct_ocular raw (ocular_correction a) ;;
  call (raw_filter raw (highpass_freq a) (lowpass_freq a)) ;;
  (if negb (is_None (clean_dir a))
   then call (save_clean raw (clean_dir a) participant_id) else ret tt) ;;
  resolved <- resolve_events raw (triggers a) ;;
  let '(events, event_id) := resolved in
  epochs <- extract_epochs raw events event_id a ;;
  fuse_metadata epochs participant_id a ;;
  bads <- call (get_bads epochs (reject_peak_to_peak a) (reject_flat a)) ;;
  let '(bad_ixs, auto_channels) := bads in
  ret {| fr_config := config;
         fr_participant_id := participant_id;
         fr_bad_channels := bad_channels;
         fr_epochs := epochs;
         fr_bad_ixs := bad_ixs;
         fr_auto_channels := auto_channels |}.

(** Lines 42-108: the invocation is recorded, [config = locals()] is a
    new dictionary, and the stages run. *)
Definition first_part (a : args) : M frame :=
  record_call a ;;
  config <- new_dict (locals a) ;;
  stages_until_detection a config.

(** What the function returns: [trials, evokeds, evokeds_df, config]. *)
Definition output : Type := dataframe * evokeds_t * dataframe * nat.

(** Lines 119-142: single trials, evokeds and their saving. *)
Definition second_part (a : args) (fr : frame) : M output :=
  let epochs := fr_epochs fr in
  let participant_id := fr_participant_id fr in
  trials <- call (compute_single_trials epochs (components a) (fr_bad_ixs fr)) ;;
  (if negb (is_None (epochs_dir a))
   then call (save_epochs epochs (epochs_dir a) participant_id (to_df a)) else ret tt) ;;
  (if negb (is_None (trials_dir a))
   then call (save_df trials (trials_dir a) participant_id "trials") else ret tt) ;;
  (if negb (is_None (export_dir a))
   then call (save_montage epochs (export_dir a)) else ret tt) ;;
  computed <-
    call (compute_evokeds epochs (condition_cols a) (fr_bad_ixs fr) participant_id) ;;
  let '(evokeds, evokeds_df) := computed in
  (if negb (is_None (evokeds_dir a))
   then call (save_evokeds evokeds evokeds_df (evokeds_dir a) participant_id (to_df a))
   else ret tt) ;;
  ret (trials, evokeds, evokeds_df, fr_config fr).

(** Line 113 and the unpacking of line 114: the detected channels are
    written into [config], and [config] becomes the keyword arguments
    of the restart. *)
Definition restart_arguments (fr : frame) : M args :=
  dict_store (fr_config fr) "bad_channels" (VList (map VStr (fr_auto_channels fr))) ;;
  config <- dict_load (fr_config fr) ;;
  lift (bind_parameters config).

(** The body of [participant_pipeline]; [self] is the function itself,
    called at line 114. *)
Definition participant_pipeline_body (self : args -> M output) (a : args) : M output :=
  fr <- first_part a ;;
  if eq_str (fr_bad_channels fr) "auto" then
    match fr_auto_channels fr with
    | _ :: _ =>
        kwargs <- restart_arguments fr ;;
        returned <- self kwargs ;;
        let '(trials, evokeds, evokeds_df, config) := returned in
        ret (trials, evokeds, evokeds_df, config)
    | [] =>
        dict_store (fr_config fr) "bad_channels" (VList []) ;;
        second_part a fr
    end
  else second_part a fr.

(** [participant_pipeline] with a bound on the depth of its calls. *)
Fixpoint participant_pipeline (depth : nat) (a : args) : M output :=
  match depth with
  | O => fun st => (st, Unfinished)
  | S d => participant_pipeline_body (participant_pipeline d) a
  end.

(** ** Notions used in the properties *)

(** A computation that acts on the world only: it ends, it leaves the
    store and the record of invocations as they are, and its outcome
    and its effect on the world depend on the world alone. *)
Definition world_only {A} (m : M A) : Prop :=
  forall st st', st_world st = st_world st' ->
    snd (m st) = snd (m st')
    /\ st_world (fst (m st)) = st_world (fst (m st'))
    /\ st_heap (fst (m st)) = st_heap st
    /\ st_calls (fst (m st)) = st_calls st
    /\ snd (m st) <> Unfinished.


(** The state in which the stages of an invocation with the arguments
    [a] start: the invocation is recorded and its snapshot is in the
    store. *)
Definition entered (a : args) (st : state) : state :=
  {| st_world := st_world st;
     st_heap := st_heap st ++ [locals a];
     st_calls := st_calls st ++ [a] |}.

(** The state [st] once [ref[k] = v] has been done. *)
Definition stored (ref : nat) (k : string) (v : value) (st : state) : state :=
  {| st_world := st_world st;
     st_heap := alter (dict_set k v) ref (st_heap st);
     st_calls := st_calls st |}.

End Pipeline.

(** ** Sample collaborators *)

(** A small world on which the pipeline can be run: the world is the
    journal of the collaborator calls made so far, the objects carry no
    data, the recording starts without bad channels, no path is a file,
    and the detector reports the channels [detected] on every pass. *)
Module Sample.

Definition journal {A} (entry : string) (a : A) : effect (list string) A :=
  fun w => (w ++ [entry], Ok a).

Definition channel_names (l : list value) : string :=
  String.concat "," (map (fun v => match v with VStr s => s | _ => "?" end) l).

(** The conversions on the values that need neither parsing nor rounding. *)
Definition int_of (v : value) : result Z :=
  match v with
  | VInt z => Ok z
  | VBool b => Ok (if b then 1 else 0)%Z
  | _ => Raise TypeError
  end.

Definition float_of (v : value) : result value :=
  match v with
  | VFloat q => Ok (VFloat q)
  | _ => Raise TypeError
  end.

Definition collaborators (detected : list string) : Collaborators := {|
  world := list string;
  raw_t := unit;
  events_t := unit;
  epochs_t := unit;
  dataframe := unit;
  evokeds_t := unit;
  bad_ixs_t := list nat;
  builtin_int := int_of;
  builtin_float := float_of;
  path_isfile := fun _ w => (w, Ok false);
  read_raw_brainvision := fun _ => journal "read_raw_brainvision" tt;
  raw_resample := fun _ _ => journal "resample" tt;
  add_heog_veog := fun raw _ _ => journal "add_heog_veog" raw;
  apply_montage := fun _ _ => journal "apply_montage" tt;
  raw_info_bads := fun _ w => (w, Ok []);
  raw_set_info_bads := fun _ bads => journal ("bads=" ++ channel_names bads) tt;
  raw_interpolate_bads := fun _ => journal "interpolate_bads" tt;
  raw_set_eeg_reference := fun _ _ => journal "set_eeg_reference" tt;
  correct_besa := fun _ _ => journal "correct_besa" tt;
  correct_ica := fun _ _ => journal "correct_ica" tt;
  raw_filter := fun _ _ _ => journal "filter" tt;
  save_clean := fun _ _ _ => journal "save_clean" tt;
  events_from_annotations := fun _ _ => journal "events_from_annotations" (tt, [("Stimulus/S  1", 1%Z)]);
  Epochs := fun _ _ _ _ _ _ => journal "Epochs" tt;
  epochs_crop := fun _ _ _ _ => journal "crop" tt;
  read_log := fun _ _ _ => journal "read_log" tt;
  epochs_set_metadata := fun _ _ => journal "metadata" tt;
  epochs_metadata_insert := fun _ _ _ _ => journal "insert" tt;
  get_bads := fun _ _ _ => journal "get_bads" ([], detected);
  compute_single_trials := fun _ _ _ => journal "compute_single_trials" tt;
  save_epochs := fun _ _ _ _ => journal "save_epochs" tt;
  save_df := fun _ _ _ _ => journal "save_df" tt;
  save_montage := fun _ _ => journal "save_montage" tt;
  compute_evokeds := fun _ _ _ _ => journal "compute_evokeds" (tt, tt);
  save_evokeds := fun _ _ _ _ _ => journal "save_evokeds" tt
|}.

(** The default arguments for the recording [/data/S01.vhdr]. *)
Definition arguments : args := {|
  vhdr_file := VStr "/data/S01.vhdr";
  log_file := VStr "/data/S01.txt";
  ocular_correction := VStr "fastica";
  bad_channels := VStr "auto";
  skip_log_rows := VNone;
  skip_log_conditions := VNone;
  downsample_sfreq := VNone;
  veog_channels := VStr "auto";
  heog_channels := VStr "auto";
  montage := VStr "easycap-M1";
  highpass_freq := VFloat (1 # 10);
  lowpass_freq := VFloat (30 # 1);
  epochs_tmin := VFloat (-1 # 2);
  epochs_tmax := VFloat (3 # 2);
  baseline := VTuple [VFloat (-2 # 10); VFloat (0 # 1)];
  triggers := VNone;
  reject_peak_to_peak := VFloat (200 # 1);
  reject_flat := VFloat (1 # 1);
  components :=
    VDict [("name", VList []); ("tmin", VList []); ("tmax", VList []); ("roi", VList [])];
  condition_cols := VNone;
  clean_dir := VNone;
  epochs_dir := VNone;
  trials_dir := VNone;
  evokeds_dir := VNone;
  export_dir := VNone;
  to_df := VBool true
|}.

(** The state before anything has run. *)
Definition start (detected : list string) : @state (collaborators detected) :=
  {| st_world := ([] : @world (collaborators detected)); st_heap := []; st_calls := [] |}.

End Sample.

(** ** A journal of the collaborator calls *)

(** To speak about which collaborators an invocation calls, with which
    arguments and in which order, any collaborators can be wrapped so
    that every call is written into a journal that is carried beside
    their world, before the call is passed on. *)
Module Journal.

(** One constructor per collaborator that acts on the world, with the
    arguments of the call that are values. *)
Inductive event : Type :=
| ReadRaw (vhdr_file : value)
| Resample (sfreq : value)
| AddHeogVeog (heog veog : value)
| ApplyMontage (montage : value)
| InfoBads
| SetInfoBads (bads : list value)
| InterpolateBads
| SetEegReference (ref : string)
| IsFile (p : value)
| CorrectBesa (besa_file : value)
| CorrectIca (method : value)
| Filter (l_freq h_freq : value)
| SaveClean (dir : value) (participant_id : string)
| EventsFromAnnotations (regexp : string)
| MakeEpochs (event_id : dict_of Z) (tmin tmax baseline : value)
| Crop (tmin tmax : value) (include_tmax : bool)
| ReadLog (log_file skip_rows skip_conditions : value)
| SetMetadata
| MetadataInsert (loc : Z) (column participant_id : string)
| GetBads (reject_peak_to_peak reject_flat : value)
| ComputeSingleTrials (components : value)
| SaveEpochs (dir : value) (participant_id : string) (to_df : value)
| SaveDf (dir : value) (participant_id suffix : string)
| SaveMontage (dir : value)
| ComputeEvokeds (condition_cols : value) (participant_id : string)
| SaveEvokeds (dir : value) (participant_id : string) (to_df : value).

Definition logged {W A} (ev : event) (c : effect W A) : effect (W * list event) A :=
  fun w =>
    let (w', r) := c (fst w) in
    ((w', snd w ++ [ev]), r).

Definition collaborators (C : Collaborators) : Collaborators := {|
  world := (@world C * list event)%type;
  raw_t := @raw_t C;
  events_t := @events_t C;
  epochs_t := @epochs_t C;
  dataframe := @dataframe C;
  evokeds_t := @evokeds_t C;
  bad_ixs_t := @bad_ixs_t C;
  builtin_int := @builtin_int C;
  builtin_float := @builtin_float C;
  path_isfile := fun p => logged (IsFile p) (path_isfile p);
  read_raw_brainvision := fun f => logged (ReadRaw f) (read_raw_brainvision f);
  raw_resample := fun raw sfreq => logged (Resample sfreq) (raw_resample raw sfreq);
  add_heog_veog := fun raw heog veog =>
    logged (AddHeogVeog heog veog) (add_heog_veog raw heog veog);
  apply_montage := fun raw m => logged (ApplyMontage m) (apply_montage raw m);
  raw_info_bads := fun raw => logged InfoBads (raw_info_bads raw);
  raw_set_info_bads := fun raw bads => logged (SetInfoBads bads) (raw_set_info_bads raw bads);
  raw_interpolate_bads := fun raw => logged InterpolateBads (raw_interpolate_bads raw);
  raw_set_eeg_reference := fun raw ref =>
    logged (SetEegReference ref) (raw_set_eeg_reference raw ref);
  correct_besa := fun raw f => logged (CorrectBesa f) (correct_besa raw f);
  correct_ica := fun raw m => logged (CorrectIca m) (correct_ica raw m);
  raw_filter := fun raw l h => logged (Filter l h) (raw_filter raw l h);
  save_clean := fun raw dir pid => logged (SaveClean dir pid) (save_clean raw dir pid);
  events_from_annotations := fun raw regexp =>
    logged (EventsFromAnnotations regexp) (events_from_annotations raw regexp);
  Epochs := fun raw events event_id tmin tmax bl =>
    logged (MakeEpochs event_id tmin tmax bl) (Epochs raw events event_id tmin tmax bl);
  epochs_crop := fun epochs tmin tmax include_tmax =>
    logged (Crop tmin tmax include_tmax) (epochs_crop epochs tmin tmax include_tmax);
  read_log := fun f rows conds => logged (ReadLog f rows conds) (read_log f rows conds);
  epochs_set_metadata := fun epochs df => logged SetMetadata (epochs_set_metadata epochs df);
  epochs_metadata_insert := fun epochs loc column v =>
    logged (MetadataInsert loc column v) (epochs_metadata_insert epochs loc column v);
  get_bads := fun epochs p f => logged (GetBads p f) (get_bads epochs p f);
  compute_single_trials := fun epochs comps ixs =>
    logged (ComputeSingleTrials comps) (compute_single_trials epochs comps ixs);
  save_epochs := fun epochs dir pid to =>
    logged (SaveEpochs dir pid to) (save_epochs epochs dir pid to);
  save_df := fun df dir pid suffix => logged (SaveDf dir pid suffix) (save_df df dir pid suffix);
  save_montage := fun epochs dir => logged (SaveMontage dir) (save_montage epochs dir);
  compute_evokeds := fun epochs cols ixs pid =>
    logged (ComputeEvokeds cols pid) (compute_evokeds epochs cols ixs pid);
  save_evokeds := fun evokeds df dir pid to =>
    logged (SaveEvokeds dir pid to) (save_evokeds evokeds df dir pid to)
|}.

(** The journal of a state. *)
Definition journal {C : Collaborators} (st : @state (collaborators C)) : list event :=
  snd (st_world st).

(** The place of a call in the text of the function. *)
Definition rank (ev : event) : nat :=
  match ev with
  | ReadRaw _ => 0
  | Resample _ => 1
  | AddHeogVeog _ _ => 2
  | ApplyMontage _ => 3
  | InfoBads => 4
  | SetInfoBads _ => 5
  | InterpolateBads => 6
  | SetEegReference _ => 7
  | IsFile _ => 8
  | CorrectBesa _ => 9
  | CorrectIca _ => 9
  | Filter _ _ => 10
  | SaveClean _ _ => 11
  | EventsFromAnnotations _ => 12
  | MakeEpochs _ _ _ _ => 13
  | Crop _ _ _ => 14
  | ReadLog _ _ _ => 15
  | SetMetadata => 16
  | MetadataInsert _ _ _ => 17
  | GetBads _ _ => 18
  | ComputeSingleTrials _ => 19
  | SaveEpochs _ _ _ => 20
  | SaveDf _ _ _ => 21
  | SaveMontage _ => 22
  | ComputeEvokeds _ _ => 23
  | SaveEvokeds _ _ _ => 24
  end.

(** Calls in the order of the text, each place at most once, all
    places from [lo] on and before [hi]. *)
Fixpoint in_order (lo hi : nat) (evs : list event) : Prop :=
  match evs with
  | [] => lo <= hi
  | ev :: rest => lo <= rank ev /\ in_order (S (rank ev)) hi rest
  end.

(** The channels that [bad_channels] names, when it names any. *)
Definition explicit_channels (bad_channels : value) : option (list value) :=
  match bad_channels with
  | VStr s => if String.eqb s "auto" then None else Some [VStr s]
  | VList names => Some names
  | _ => None
  end.

(** A call that is made with the arguments [a] of the invocation. *)
Definition fits (a : args) (ev : event) : Prop :=
  match ev with
  | ReadRaw f => f = vhdr_file a
  | Resample _ => is_None (downsample_sfreq a) = false
  | AddHeogVeog heog veog => heog = heog_channels a /\ veog = veog_channels a
  | ApplyMontage m => m = montage a
  | InfoBads => is_None (bad_channels a) = false /\ eq_str (bad_channels a) "auto" = false
  | SetInfoBads bads =>
      exists before names,
        bads = before ++ names /\ explicit_channels (bad_channels a) = Some names
  | InterpolateBads => exists names, explicit_channels (bad_channels a) = Some names
  | SetEegReference ref => ref = "average"
  | IsFile p => p = ocular_correction a /\ is_None p = false
  | CorrectBesa p => p = ocular_correction a /\ is_None p = false
  | CorrectIca p => p = ocular_correction a /\ is_None p = false
  | Filter l h => l = highpass_freq a /\ h = lowpass_freq a
  | SaveClean dir pid =>
      dir = clean_dir a /\ is_None dir = false /\ get_participant_id (vhdr_file a) = Ok pid
  | EventsFromAnnotations regexp => regexp = "Stimulus"
  | MakeEpochs _ tmin tmax bl =>
      tmin = epochs_tmin a /\ tmax = epochs_tmax a /\ bl = baseline a
  | Crop tmin tmax include_tmax =>
      tmin = epochs_tmin a /\ tmax = epochs_tmax a /\ include_tmax = false
  | ReadLog f rows conds =>
      f = log_file a /\ rows = skip_log_rows a /\ conds = skip_log_conditions a
  | SetMetadata => True
  | MetadataInsert loc column pid =>
      loc = 0%Z /\ column = "participant_id" /\ get_participant_id (vhdr_file a) = Ok pid
  | GetBads p f => p = reject_peak_to_peak a /\ f = reject_flat a
  | ComputeSingleTrials comps => comps = components a
  | SaveEpochs dir pid to =>
      dir = epochs_dir a /\ is_None dir = false
      /\ get_participant_id (vhdr_file a) = Ok pid /\ to = to_df a
  | SaveDf dir pid suffix =>
      dir = trials_dir a /\ is_None dir = false
      /\ get_participant_id (vhdr_file a) = Ok pid /\ suffix = "trials"
  | SaveMontage dir => dir = export_dir a /\ is_None dir = false
  | ComputeEvokeds cols pid =>
      cols = condition_cols a /\ get_participant_id (vhdr_file a) = Ok pid
  | SaveEvokeds dir pid to =>
      dir = evokeds_dir a /\ is_None dir = false
      /\ get_participant_id (vhdr_file a) = Ok pid /\ to = to_df a
  end.

(** A computation whose calls are made in order, between the places
    [lo] and [hi], with the arguments [a]. *)
Definition emits {C : Collaborators} {A} (a : args) (lo hi : nat)
    (m : @M (collaborators C) A) : Prop :=
  forall st, exists evs,
    journal (fst (m st)) = journal st ++ evs
    /\ in_order lo hi evs
    /\ Forall (fits a) evs.

End Journal.

(** ** A trace of what the collaborators returned *)

(** The journal says which calls are made.  To speak about what a pass
    does with the values that come back (the bad channels the recording
    has, the codes found in the annotations, the epochs that were made,
    the channels the detector reports), any collaborators can also be
    wrapped so that these calls are written down once they have
    returned, with the objects they were given and what they gave
    back. *)
Module Trace.

Section Steps.

Context {C : Collaborators}.

Inductive step : Type :=
| GotInfoBads (raw : raw_t) (bads : list value)
| SetInfoBads (raw : raw_t) (bads : list value)
| InterpolatedBads (raw : raw_t)
| GotAnnotations (raw : raw_t) (regexp : string) (events : events_t) (event_id : dict_of Z)
| MadeEpochs (raw : raw_t) (events : events_t) (event_id : dict_of Z)
    (tmin tmax baseline : value) (epochs : epochs_t)
| Cropped (epochs : epochs_t) (tmin tmax : value) (include_tmax : bool)
| GotBads (epochs : epochs_t) (reject_peak_to_peak reject_flat : value)
    (bad_ixs : bad_ixs_t) (auto_channels : list string).

(** A call that is written down when it has returned. *)
Definition traced {A} (obs : A -> step) (c : effect world A) : effect (world * list step) A :=
  fun w =>
    let (w', r) := c (fst w) in
    match r with
    | Ok x => ((w', snd w ++ [obs x]), Ok x)
    | Raise e => ((w', snd w), Raise e)
    end.

(** A call that is passed on only. *)
Definition untraced {A} (c : effect world A) : effect (world * list step) A :=
  fun w =>
    let (w', r) := c (fst w) in
    ((w', snd w), r).

End Steps.

Arguments step C : clear implicits.

Definition collaborators (C : Collaborators) : Collaborators := {|
  world := (@world C * list (step C))%type;
  raw_t := @raw_t C;
  events_t := @events_t C;
  epochs_t := @epochs_t C;
  dataframe := @dataframe C;
  evokeds_t := @evokeds_t C;
  bad_ixs_t := @bad_ixs_t C;
  builtin_int := @builtin_int C;
  builtin_float := @builtin_float C;
  path_isfile := fun p => untraced (path_isfile p);
  read_raw_brainvision := fun f => untraced (read_raw_brainvision f);
  raw_resample := fun raw sfreq => untraced (raw_resample raw sfreq);
  add_heog_veog := fun raw heog veog => untraced (add_heog_veog raw heog veog);
  apply_montage := fun raw m => untraced (apply_montage raw m);
  raw_info_bads := fun raw => traced (GotInfoBads raw) (raw_info_bads raw);
  raw_set_info_bads := fun raw bads =>
    traced (fun _ => SetInfoBads raw bads) (raw_set_info_bads raw bads);
  raw_interpolate_bads := fun raw =>
    traced (fun _ => InterpolatedBads raw) (raw_interpolate_bads raw);
  raw_set_eeg_reference := fun raw ref => untraced (raw_set_eeg_reference raw ref);
  correct_besa := fun raw f => untraced (correct_besa raw f);
  correct_ica := fun raw m => untraced (correct_ica raw m);
  raw_filter := fun raw l h => untraced (raw_filter raw l h);
  save_clean := fun raw dir pid => untraced (save_clean raw dir pid);
  events_from_annotations := fun raw regexp =>
    traced (fun found => GotAnnotations raw regexp (fst found) (snd found))
      (events_from_annotations raw regexp);
  Epochs := fun raw events event_id tmin tmax bl =>
    traced (MadeEpochs raw events event_id tmin tmax bl)
      (Epochs raw events event_id tmin tmax bl);
  epochs_crop := fun epochs tmin tmax include_tmax =>
    traced (fun _ => Cropped epochs tmin tmax include_tmax)
      (epochs_crop epochs tmin tmax include_tmax);
  read_log := fun f rows conds => untraced (read_log f rows conds);
  epochs_set_metadata := fun epochs df => untraced (epochs_set_metadata epochs df);
  epochs_metadata_insert := fun epochs loc column v =>
    untraced (epochs_metadata_insert epochs loc column v);
  get_bads := fun epochs p f =>
    traced (fun found => GotBads epochs p f (fst found) (snd found)) (get_bads epochs p f);
  compute_single_trials := fun epochs comps ixs =>
    untraced (compute_single_trials epochs comps ixs);
  save_epochs := fun epochs dir pid to => untraced (save_epochs epochs dir pid to);
  save_df := fun df dir pid suffix => untraced (save_df df dir pid suffix);
  save_montage := fun epochs dir => untraced (save_montage epochs dir);
  compute_evokeds := fun epochs cols ixs pid =>
    untraced (compute_evokeds epochs cols ixs pid);
  save_evokeds := fun evokeds df dir pid to => untraced (save_evokeds evokeds df dir pid to)
|}.

(** The trace of a state. *)
Definition trace {C : Collaborators} (st : @state (collaborators C)) : list (step C) :=
  snd (st_world st).

(** What the interpolation stage of a pass that goes on leaves in the
    trace: when [bad_channels] names channels, the bad channels of the
    recording are read, set to what was read followed by the named
    channels, and interpolated; otherwise nothing is done. *)
Definition interpolation {C : Collaborators} (raw : @raw_t C) (bad_channels : value)
    (steps : list (step C)) : Prop :=
  match Journal.explicit_channels bad_channels with
  | Some names =>
      exists bads,
        steps = [GotInfoBads raw bads; SetInfoBads raw (bads ++ names); InterpolatedBads raw]
  | None => steps = []
  end.

(** The codes that go with the events: the annotated ones when
    [triggers] is [None], else the values of [triggers] passed through
    [int]. *)
Definition codes_for {C : Collaborators} (triggers : value) (annotated event_id : dict_of Z)
    : Prop :=
  match triggers with
  | VNone => event_id = annotated
  | _ => coerce_triggers triggers = Ok event_id
  end.

(** The trace of a pass with the arguments [a] that reaches the
    detection and finds [auto_channels]. *)
Definition pass {C : Collaborators} (a : args) (epochs : @epochs_t C) (bad_ixs : @bad_ixs_t C)
    (auto_channels : list string) (steps : list (step C)) : Prop :=
  exists raw events annotated event_id interpolated,
    steps = interpolated ++
      [GotAnnotations raw "Stimulus" events annotated;
       MadeEpochs raw events event_id (epochs_tmin a) (epochs_tmax a) (baseline a) epochs;
       Cropped epochs (epochs_tmin a) (epochs_tmax a) false;
       GotBads epochs (reject_peak_to_peak a) (reject_flat a) bad_ixs auto_channels]
    /\ interpolation raw (bad_channels a) interpolated
    /\ codes_for (triggers a) annotated event_id.

End Trace.

(** ** [pipeline/io.py]: the savers *)

Module Io.

(** A channel of a recording: its name and its location (twelve
    numbers, of which the first three are the position). *)
Record channel : Type := { ch_name : string; loc : list value }.

(** What the savers call: the file system, MNE, pandas and json.
    Functions keep their names; a method [obj.m] is [obj_m].  The
    keyword arguments that are constants in the source ([exist_ok],
    [na_rep], [float_format], [index], [scalings], [axis], [drop],
    [overwrite], [verbose], [open_browser]) are part of the
    operation. *)
Class Persistence : Type := {
  fs : Type;
  raw_o : Type;
  epochs_o : Type;
  frame_o : Type;
  evokeds_o : Type;
  ica_o : Type;
  events_o : Type;
  report_o : Type;
  makedirs : string -> effect fs unit;
  raw_save : raw_o -> string -> effect fs unit;
  df_to_csv : frame_o -> string -> effect fs unit;
  epochs_to_data_frame : epochs_o -> effect fs frame_o;
  epochs_metadata_copy : epochs_o -> effect fs frame_o;
  df_columns : frame_o -> effect fs (list string);
  df_drop : frame_o -> list string -> effect fs frame_o;
  epochs_times_len : epochs_o -> effect fs nat;
  df_repeat_rows : frame_o -> nat -> effect fs frame_o;
  df_reset_index : frame_o -> effect fs frame_o;
  pd_concat : list frame_o -> effect fs frame_o;
  epochs_save : epochs_o -> string -> effect fs unit;
  write_evokeds : string -> evokeds_o -> effect fs unit;
  epochs_eeg_chs : epochs_o -> effect fs (list channel);
  DataFrame : list string -> list (list value) -> effect fs frame_o;
  df_insert : frame_o -> Z -> string -> list string -> effect fs unit;
  json_dump : value -> string -> effect fs unit;
  Report : string -> effect fs report_o;
  report_add_raw : report_o -> raw_o -> string -> effect fs unit;
  report_add_ica : report_o -> ica_o -> string -> raw_o -> effect fs unit;
  raw_info_sfreq : raw_o -> effect fs value;
  report_add_events : report_o -> events_o -> string -> value -> value -> effect fs unit;
  report_add_epochs : report_o -> epochs_o -> string -> effect fs unit;
  report_add_evokeds : report_o -> evokeds_o -> effect fs unit;
  report_save : report_o -> string -> effect fs unit
}.

(** What a saver does to the file system: the directories it makes
    sure of and the files it writes. *)
Inductive file_event : Type :=
| Makedirs (dir : string)
| RawSave (fname : string)
| ToCsv (fname : string)
| EpochsSave (fname : string)
| WriteEvokeds (fname : string)
| JsonDump (fname : string)
| ReportSave (fname : string).

(** The file that an event writes. *)
Definition target (ev : file_event) : option string :=
  match ev with
  | Makedirs _ => None
  | RawSave fname => Some fname
  | ToCsv fname => Some fname
  | EpochsSave fname => Some fname
  | WriteEvokeds fname => Some fname
  | JsonDump fname => Some fname
  | ReportSave fname => Some fname
  end.

(** [to_df is True], [to_df is False], [to_df == 'both'] *)
Definition is_True (v : value) : bool :=
  match v with VBool true => true | _ => false end.

Definition is_False (v : value) : bool :=
  match v with VBool false => true | _ => false end.

Section Savers.

Context `{P : Persistence}.

(** The savers run in a state-and-error monad; the state is the world
    of the collaborators and the record of the file events so far. *)
Definition IO (A : Type) : Type := fs * list file_event -> (fs * list file_event) * result A.

Definition io_ret {A} (a : A) : IO A := fun s => (s, Ok a).

Definition io_bind {A B} (m : IO A) (k : A -> IO B) : IO B :=
  fun s =>
    match m s with
    | (s', Ok a) => k a s'
    | (s', Raise e) => (s', Raise e)
    end.

(** A call that touches files: it is recorded, then made. *)
Definition act (ev : file_event) (c : effect fs unit) : IO unit :=
  fun s =>
    let (w, r) := c (fst s) in
    ((w, snd s ++ [ev]), r).

(** Any other call. *)
Definition lib {A} (c : effect fs A) : IO A :=
  fun s =>
    let (w, r) := c (fst s) in
    ((w, snd s), r).

Declare Scope io_scope.
Delimit Scope io_scope with io.
Notation "x <- c1 ;; c2" := (io_bind c1 (fun x => c2))
  (at level 100, c1 at next level, right associativity) : io_scope.
Notation "c1 ;; c2" := (io_bind c1 (fun _ => c2))
  (at level 100, right associativity) : io_scope.

Local Open Scope io_scope.

(** [save_clean(raw, output_dir, participant_id='')] *)
Definition save_clean (raw : raw_o) (output_dir participant_id : string) : IO unit :=
  let participant_id_ :=
    if String.eqb participant_id "" then "" else (participant_id ++ "_")%string in
  let suffix := "cleaned_eeg" in
  act (Makedirs output_dir) (makedirs output_dir) ;;
  let fname := (output_dir ++ "/" ++ participant_id_ ++ suffix ++ ".fif")%string in
  act (RawSave fname) (raw_save raw fname).

(** [save_df(df, output_dir, participant_id='', suffix='')] *)
Definition save_df (df : frame_o) (output_dir participant_id suffix : string) : IO unit :=
  act (Makedirs output_dir) (makedirs output_dir) ;;
  let participant_id_ :=
    if String.eqb participant_id "" then "" else (participant_id ++ "_")%string in
  let suffix := if String.eqb suffix "" then "" else suffix in
  let fname := (output_dir ++ "/" ++ participant_id_ ++ suffix ++ ".csv")%string in
  act (ToCsv fname) (df_to_csv df fname).

(** [save_epochs(epochs, output_dir, participant_id='', to_df=True)] *)
Definition save_epochs (epochs : epochs_o) (output_dir participant_id : string)
    (to_df : value) : IO unit :=
  act (Makedirs output_dir) (makedirs output_dir) ;;
  let participant_id_ :=
    if String.eqb participant_id "" then "" else (participant_id ++ "_")%string in
  let suffix := "epo" in
  (if is_True to_df || eq_str to_df "both" then
     epochs_df <- lib (epochs_to_data_frame epochs) ;;
     metadata_df <- lib (epochs_metadata_copy epochs) ;;
     metadata_columns <- lib (df_columns metadata_df) ;;
     epochs_columns <- lib (df_columns epochs_df) ;;
     metadata_df <- lib (df_drop metadata_df
                           (filter (fun col => str_in col epochs_columns) metadata_columns)) ;;
     n_samples <- lib (epochs_times_len epochs) ;;
     metadata_df <- lib (df_repeat_rows metadata_df n_samples) ;;
     metadata_df <- lib (df_reset_index metadata_df) ;;
     epochs_df <- lib (pd_concat [metadata_df; epochs_df]) ;;
     save_df epochs_df output_dir participant_id suffix
   else io_ret tt) ;;
  if is_False to_df || eq_str to_df "both" then
    let fname := (output_dir ++ "/" ++ participant_id_ ++ suffix ++ ".fif")%string in
    act (EpochsSave fname) (epochs_save epochs fname)
  else io_ret tt.

(** [save_evokeds(evokeds, evokeds_df, output_dir, participant_id='', to_df=True)] *)
Definition save_evokeds (evokeds : evokeds_o) (evokeds_df : frame_o)
    (output_dir participant_id : string) (to_df : value) : IO unit :=
  let participant_id_ :=
    if String.eqb participant_id "" then "" else (participant_id ++ "_")%string in
  let suffix := "ave" in
  act (Makedirs output_dir) (makedirs output_dir) ;;
  (if is_True to_df || eq_str to_df "both" then
     save_df evokeds_df output_dir participant_id suffix
   else io_ret tt) ;;
  if is_False to_df || eq_str to_df "both" then
    let fname := (output_dir ++ "/" ++ participant_id_ ++ suffix ++ ".fif")%string in
    act (WriteEvokeds fname) (write_evokeds fname evokeds)
  else io_ret tt.

(** [save_montage(epochs, output_dir)] *)
Definition save_montage (epochs : epochs_o) (output_dir : string) : IO unit :=
  act (Makedirs output_dir) (makedirs output_dir) ;;
  chs <- lib (epochs_eeg_chs epochs) ;;
  let coords := map (fun ch => take 3 (loc ch)) chs in
  coords_df <- lib (DataFrame ["x"; "y"; "z"] coords) ;;
  let ch_names := map ch_name chs in
  lib (df_insert coords_df 0 "ch_name" ch_names) ;;
  save_df coords_df output_dir "" "channel_locations".

(** [save_config(config, output_dir)] *)
Definition save_config (config : value) (output_dir : string) : IO unit :=
  act (Makedirs output_dir) (makedirs output_dir) ;;
  let fname := (output_dir ++ "/config.json")%string in
  act (JsonDump fname) (json_dump config fname).

(** [save_report(raw, ica, clean, events, event_id, epochs, evokeds,
    output_dir, participant_id)]; console output is left out. *)
Definition save_report (raw : raw_o) (ica : option ica_o) (clean : raw_o)
    (events : events_o) (event_id : value) (epochs : epochs_o) (evokeds : evokeds_o)
    (output_dir participant_id : string) : IO unit :=
  report <- lib (Report ("Report for " ++ participant_id)) ;;
  lib (report_add_raw report raw "Raw data") ;;
  (match ica with
   | Some ica => lib (report_add_ica report ica "ICA" raw)
   | None => io_ret tt
   end) ;;
  lib (report_add_raw report clean "Cleaned data") ;;
  sfreq <- lib (raw_info_sfreq clean) ;;
  lib (report_add_events report events "Event triggers" event_id sfreq) ;;
  lib (report_add_epochs report epochs "Epochs") ;;
  lib (report_add_evokeds report evokeds) ;;
  act (Makedirs output_dir) (makedirs output_dir) ;;
  let fname := (output_dir ++ "/" ++ participant_id ++ "_report.html")%string in
  act (ReportSave fname) (report_save report fname).

(** ** Notions used in the properties of the savers *)

(** The file events that a run adds to the record. *)
Definition adds {A} (m : IO A) (s : fs * list file_event) (evs : list file_event) : Prop :=
  snd (fst (m s)) = snd s ++ evs.

(** A computation all of whose file events satisfy [Q]. *)
Definition all_events {A} (Q : file_event -> Prop) (m : IO A) : Prop :=
  forall s, exists evs, adds m s evs /\ Forall Q evs.

(** A file that is written by one of the events. *)
Definition writes (evs : list file_event) (fname : string) : Prop :=
  exists ev, In ev evs /\ target ev = Some fname.

(** A computation that keeps to the directory [dir]: before it writes
    anything it makes sure of [dir], and what it writes are files
    whose names are [dir], a slash, and a name. *)
Definition keeps_to {A} (dir : string) (m : IO A) : Prop :=
  forall s, exists evs,
    adds m s evs
    /\ (evs = [] \/ exists rest, evs = Makedirs dir :: rest)
    /\ forall fname, writes evs fname -> exists name, fname = (dir ++ "/" ++ name)%string.

End Savers.

(** The name of a participant's file: directory, identifier with an
    underscore unless it is empty, suffix, extension. *)
Definition file_name (output_dir participant_id suffix ext : string) : string :=
  (output_dir ++ "/"
   ++ (if String.eqb participant_id "" then "" else participant_id ++ "_")
   ++ suffix ++ ext)%string.

(** The events of a run of [save_epochs] or [save_evokeds] that
    returns: the directory, then the table when it is asked for, then
    the MNE file when it is asked for. *)
Definition formats_written (dir pid suffix : string) (fif : string -> file_event)
    (to_df : value) : list file_event :=
  Makedirs dir
  :: (if is_True to_df || eq_str to_df "both"
      then [Makedirs dir; ToCsv (file_name dir pid suffix ".csv")] else [])
  ++ (if is_False to_df || eq_str to_df "both"
      then [fif (file_name dir pid suffix ".fif")] else []).

(** Collaborators that do nothing and never fail, for running the
    savers on concrete input. *)
Definition quiet : Persistence := {|
  fs := unit;
  raw_o := unit;
  epochs_o := unit;
  frame_o := unit;
  evokeds_o := unit;
  ica_o := unit;
  events_o := unit;
  report_o := unit;
  makedirs := fun _ w => (w, Ok tt);
  raw_save := fun _ _ w => (w, Ok tt);
  df_to_csv := fun _ _ w => (w, Ok tt);
  epochs_to_data_frame := fun _ w => (w, Ok tt);
  epochs_metadata_copy := fun _ w => (w, Ok tt);
  df_columns := fun _ w => (w, Ok []);
  df_drop := fun _ _ w => (w, Ok tt);
  epochs_times_len := fun _ w => (w, Ok 0%nat);
  df_repeat_rows := fun _ _ w => (w, Ok tt);
  df_reset_index := fun _ w => (w, Ok tt);
  pd_concat := fun _ w => (w, Ok tt);
  epochs_save := fun _ _ w => (w, Ok tt);
  write_evokeds := fun _ _ w => (w, Ok tt);
  epochs_eeg_chs := fun _ w => (w, Ok []);
  DataFrame := fun _ _ w => (w, Ok tt);
  df_insert := fun _ _ _ _ w => (w, Ok tt);
  json_dump := fun _ _ w => (w, Ok tt);
  Report := fun _ w => (w, Ok tt);
  report_add_raw := fun _ _ _ w => (w, Ok tt);
  report_add_ica := fun _ _ _ _ w => (w, Ok tt);
  raw_info_sfreq := fun _ w => (w, Ok VNone);
  report_add_events := fun _ _ _ _ _ w => (w, Ok tt);
  report_add_epochs := fun _ _ _ w => (w, Ok tt);
  report_add_evokeds := fun _ _ w => (w, Ok tt);
  report_save := fun _ _ w => (w, Ok tt)
|}.

End Io.

(** * Properties *)

(** ** Lists and dictionaries *)

Lemma str_in_In (x : string) (xs : list string) : str_in x xs = true <-> In x xs.
Proof.
  unfold str_in. rewrite existsb_exists. split.
  - intros [y [Hy Heq]]. apply String.eqb_eq in Heq. now subst.
  - intros Hx. exists x. split; [assumption | apply String.eqb_refl].
Qed.

Lemma lookup_map {A B} (f : A -> B) (l : list A) (i : nat) :
  map f l !! i = option_map f (l !! i).
Proof.
  revert i. induction l as [|x l IH]; intros [|i]; simpl; auto.
Qed.

Section DictFacts.

Context {V : Type}.
Implicit Types (d : dict_of V) (k : string) (v : V).

Lemma dict_set_length_present k v d :
  In k (dict_keys d) -> dict_keys (dict_set k v d) = dict_keys d.
Proof.
  induction d as [|[k' v'] d IH]; simpl; [tauto|].
  intros Hin. destruct (String.eqb k' k) eqn:E; simpl; [reflexivity|].
  f_equal. apply IH. destruct Hin as [->|]; [|assumption].
  rewrite String.eqb_refl in E. discriminate.
Qed.

Lemma dict_set_keys k v d k' :
  In k' (dict_keys (dict_set k v d)) <-> k' = k \/ In k' (dict_keys d).
Proof.
  induction d as [|[k0 v0] d IH]; simpl.
  - intuition.
  - destruct (String.eqb k0 k) eqn:E; simpl.
    + apply String.eqb_eq in E. subst. intuition.
    + rewrite IH. intuition.
Qed.

Lemma dict_set_absent k v d :
  ~ In k (dict_keys d) -> dict_set k v d = d ++ [(k, v)].
Proof.
  induction d as [|[k0 v0] d IH]; simpl; [reflexivity|].
  intros Hn. destruct (String.eqb k0 k) eqn:E.
  - apply String.eqb_eq in E. tauto.
  - f_equal. apply IH. tauto.
Qed.

Lemma dict_set_lookup_other k v d i k' v' :
  d !! i = Some (k', v') -> k' <> k -> dict_set k v d !! i = Some (k', v').
Proof.
  revert i. induction d as [|[k0 v0] d IH]; intros i; simpl; [discriminate|].
  intros Hi Hne. destruct (String.eqb k0 k) eqn:E.
  - destruct i as [|i]; simpl in *; [|assumption].
    injection Hi as -> ->. apply String.eqb_eq in E. congruence.
  - destruct i as [|i]; simpl in *; [assumption|]. now apply IH.
Qed.

Lemma dict_get_set_same k v d : dict_get k (dict_set k v d) = Some v.
Proof.
  induction d as [|[k0 v0] d IH]; simpl.
  - now rewrite String.eqb_refl.
  - destruct (String.eqb k0 k) eqn:E; simpl; rewrite E; auto.
Qed.

Lemma dict_get_set_other k k' v d :
  k' <> k -> dict_get k' (dict_set k v d) = dict_get k' d.
Proof.
  intros Hne. induction d as [|[k0 v0] d IH]; simpl.
  - destruct (String.eqb k k') eqn:E; [|reflexivity].
    apply String.eqb_eq in E. congruence.
  - destruct (String.eqb k0 k) eqn:E; simpl.
    + apply String.eqb_eq in E. subst k0.
      destruct (String.eqb k k') eqn:E'; [|reflexivity].
      apply String.eqb_eq in E'. congruence.
    + now rewrite IH.
Qed.

Lemma dict_set_values_Forall (P : V -> Prop) k v d :
  P v -> Forall (fun kv => P (snd kv)) d -> Forall (fun kv => P (snd kv)) (dict_set k v d).
Proof.
  intros Hv. induction 1 as [|[k0 v0] d H0 Hd IH]; simpl.
  - repeat constructor. exact Hv.
  - destruct (String.eqb k0 k); constructor; auto.
Qed.

End DictFacts.

(** ** [none_dict]: the distinct ids, each with [None] *)

Lemma none_dict_from (ids : list string) (acc : dict) :
  Forall (fun kv => snd kv = VNone) acc ->
  let d := fold_left (fun d id => dict_set id VNone d) ids acc in
  Forall (fun kv => snd kv = VNone) d
  /\ forall k, In k (dict_keys d) <-> In k ids \/ In k (dict_keys acc).
Proof.
  revert acc. induction ids as [|id ids IH]; intros acc Hacc; simpl.
  - split; [assumption | intuition].
  - destruct (IH (dict_set id VNone acc)) as [Hall Hkeys].
    + now apply (dict_set_values_Forall (fun v => v = VNone)).
    + split; [assumption|]. intros k. rewrite Hkeys, dict_set_keys. intuition.
Qed.

Lemma none_dict_values (ids : list string) :
  Forall (fun kv => snd kv = VNone) (none_dict ids).
Proof. apply (none_dict_from ids []). constructor. Qed.

Lemma none_dict_keys (ids : list string) (k : string) :
  In k (dict_keys (none_dict ids)) <-> In k ids.
Proof.
  destruct (none_dict_from ids [] ltac:(constructor)) as [_ H].
  unfold none_dict. rewrite H. simpl. intuition.
Qed.

Lemma none_dict_keys_NoDup (ids : list string) :
  List.NoDup ids -> dict_keys (none_dict ids) = ids.
Proof.
  unfold none_dict.
  cut (forall acc : dict, List.NoDup (dict_keys acc ++ ids) ->
         dict_keys (fold_left (fun d id => dict_set id VNone d) ids acc) = dict_keys acc ++ ids).
  { intros H Hnd. apply (H []). exact Hnd. }
  induction ids as [|id ids IH]; intros acc Hnd; simpl.
  - now rewrite app_nil_r.
  - rewrite IH.
    + rewrite dict_set_absent.
      * unfold dict_keys. rewrite map_app. simpl. now rewrite <- app_assoc.
      * apply NoDup_remove_2 in Hnd. intros Hin. apply Hnd. apply in_or_app. now left.
    + rewrite dict_set_absent.
      * unfold dict_keys. rewrite map_app. simpl. rewrite <- app_assoc. exact Hnd.
      * apply NoDup_remove_2 in Hnd. intros Hin. apply Hnd. apply in_or_app. now left.
Qed.

Lemma none_dict_lookup (ids : list string) (i : nat) (id : string) :
  dict_keys (none_dict ids) !! i = Some id -> none_dict ids !! i = Some (id, VNone).
Proof.
  unfold dict_keys. rewrite lookup_map.
  destruct (none_dict ids !! i) as [[k v]|] eqn:E; simpl; [|discriminate].
  intros [= ->]. f_equal. f_equal.
  pose proof (none_dict_values ids) as Hall.
  rewrite Forall_forall in Hall.
  apply (Hall (id, v)). eapply list_elem_of_lookup_2. exact E.
Qed.

(** ** [is_nested_list] *)

(** C6.  [is_nested_list] is false on the empty list, false on a list
    none of whose elements is a list (such as [[1, 2, 3]]), true on a
    list with at least one list among its elements (such as
    [[[1], [2]]]), and false on every value that is not a list. *)
Theorem is_nested_list_cases :
  is_nested_list (VList []) = false
  /\ (forall elems, (forall e, In e elems -> isinstance_list e = false) ->
        is_nested_list (VList elems) = false)
  /\ is_nested_list (VList [VInt 1; VInt 2; VInt 3]) = false
  /\ (forall elems e, In e elems -> isinstance_list e = true ->
        is_nested_list (VList elems) = true)
  /\ is_nested_list (VList [VList [VInt 1]; VList [VInt 2]]) = true
  /\ (forall v, isinstance_list v = false -> is_nested_list v = false).
Proof.
  repeat split; try reflexivity.
  - intros elems Hflat. simpl.
    destruct (existsb isinstance_list elems) eqn:E; [|reflexivity].
    apply existsb_exists in E. destruct E as [e [Hin He]].
    rewrite (Hflat e Hin) in He. discriminate.
  - intros elems e Hin He. simpl. apply existsb_exists. now exists e.
  - intros v Hv. destruct v; try reflexivity. discriminate.
Qed.

Lemma is_nested_list_cases_witness :
  is_nested_list (VList [VStr "Fp1"; VStr "Fp2"]) = false
  /\ is_nested_list (VList [VStr "Fp1"; VList [VStr "Fp2"]]) = true
  /\ is_nested_list (VStr "Fp1") = false.
Proof.
  destruct is_nested_list_cases as (_ & Hflat & _ & Hnested & _ & Hother).
  split; [|split].
  - apply Hflat. intros e [<-|[<-|[]]]; reflexivity.
  - apply (Hnested _ (VList [VStr "Fp2"])); [simpl; auto | reflexivity].
  - apply Hother. reflexivity.
Defined.

(** ** [check_participant_input] *)




Lemma assign_values_unknown (ids : list string) (items : dict) (pd : dict) :
  (exists id, In id (dict_keys items) /\ ~ In id ids) ->
  exists id, In id (dict_keys items) /\ ~ In id ids /\
    assign_values ids items pd
    = Raise (AssertionError ("Participant ID " ++ id ++ " is not in vhdr_files")).
Proof.
  revert pd. induction items as [|[k v] items IH]; intros pd [id [Hin Hun]].
  - destruct Hin.
  - simpl. destruct (str_in k ids) eqn:E.
    + apply str_in_In in E.
      destruct Hin as [Hk|Hin]; [simpl in Hk; subst; contradiction|].
      destruct (IH (dict_set k v pd)) as [id' (Hin' & Hun' & Hr)]; [now exists id|].
      exists id'. split; [now right | split; assumption].
    + exists k. split; [now left | split; [|reflexivity]].
      intros Hk. apply str_in_In in Hk. congruence.
Qed.

Lemma assign_values_known (ids : list string) (items : dict) (pd pd' : dict) :
  assign_values ids items pd = Ok pd' ->
  (forall k, In k ids -> In k (dict_keys pd)) ->
  dict_keys pd' = dict_keys pd
  /\ forall i k v, pd !! i = Some (k, v) -> ~ In k (dict_keys items) ->
       pd' !! i = Some (k, v).
Proof.
  revert pd. induction items as [|[id values] items IH]; intros pd; simpl.
  - intros [= <-] _. auto.
  - destruct (str_in id ids) eqn:E; [|discriminate].
    apply str_in_In in E. intros Hrun Hcover.
    assert (Hkeys : dict_keys (dict_set id values pd) = dict_keys pd)
      by (apply dict_set_length_present; auto).
    destruct (IH _ Hrun) as [Hk Hv].
    + intros k Hin. rewrite Hkeys. auto.
    + split; [congruence|].
      intros i k v Hi Hn. apply Hv; [|tauto].
      apply dict_set_lookup_other; [assumption|]. intros ->. tauto.
Qed.

(** C4.  [check_participant_input] raises (an [AssertionError], the
    configuration error of the specification) for every nested list
    whose length is not the number of participant ids, and for every
    dict with a key that is no participant id; when it returns for a
    dict, the result has one entry per distinct participant id, in
    order (per participant id when the ids are distinct), and the
    entry of every id that is no key of the dict is [None]. *)
Theorem check_participant_input_errors (participant_ids : list string) :
  (forall elems, is_nested_list (VList elems) = true ->
     length elems <> length participant_ids ->
     check_participant_input (VList elems) participant_ids
     = Raise (AssertionError "Input lists must have the same length"))
  /\ (forall items,
     (exists id, In id (dict_keys items) /\ ~ In id participant_ids) ->
     exists id, In id (dict_keys items) /\ ~ In id participant_ids /\
       check_participant_input (VDict items) participant_ids
       = Raise (AssertionError ("Participant ID " ++ id ++ " is not in vhdr_files")))
  /\ (forall items entries,
     check_participant_input (VDict items) participant_ids = Ok entries ->
     length entries = length (dict_keys (none_dict participant_ids))
     /\ (forall id, In id participant_ids -> In id (dict_keys (none_dict participant_ids)))
     /\ forall i id,
          dict_keys (none_dict participant_ids) !! i = Some id ->
          ~ In id (dict_keys items) ->
          entries !! i = Some VNone)
  /\ (List.NoDup participant_ids -> dict_keys (none_dict participant_ids) = participant_ids).
Proof.
  split; [|split; [|split; [|apply none_dict_keys_NoDup]]].
  - intros elems Hn Hlen. unfold check_participant_input. rewrite Hn.
    destruct (Nat.eqb_spec (length elems) (length participant_ids)); [contradiction|].
    reflexivity.
  - intros items Hex.
    destruct (assign_values_unknown participant_ids items (none_dict participant_ids) Hex)
      as [id (Hin & Hun & Hr)].
    exists id. split; [assumption | split; [assumption|]]. simpl. now rewrite Hr.
  - intros items entries. simpl.
    destruct (assign_values participant_ids items (none_dict participant_ids))
      as [pd|e] eqn:Hrun; simpl; [|discriminate].
    intros [= <-].
    destruct (assign_values_known _ _ _ _ Hrun) as [Hkeys Hvals].
    { intros k Hk. now apply none_dict_keys. }
    split; [|split].
    + rewrite <- Hkeys. unfold dict_values, dict_keys. now rewrite !length_map.
    + intros id Hid. now apply none_dict_keys.
    + intros i id Hi Hmissing. unfold dict_values. rewrite lookup_map.
      rewrite (Hvals i id VNone); [reflexivity | | assumption].
      now apply none_dict_lookup.
Qed.

Lemma check_participant_input_errors_witness :
  check_participant_input (VList [VList [VStr "Fp1"]]) ["S01"; "S02"]
  = Raise (AssertionError "Input lists must have the same length")
  /\ (exists id, In id ["S01"; "S09"] /\ ~ In id ["S01"; "S02"] /\
        check_participant_input (VDict [("S01", VInt 1); ("S09", VInt 2)]) ["S01"; "S02"]
        = Raise (AssertionError ("Participant ID " ++ id ++ " is not in vhdr_files")))
  /\ check_participant_input (VDict [("S02", VList [VStr "Fp1"])]) ["S01"; "S02"]
     = Ok [VNone; VList [VStr "Fp1"]]
  /\ [VNone; VList [VStr "Fp1"]] !! 0%nat = Some VNone.
Proof.
  destruct (check_participant_input_errors ["S01"; "S02"]) as (Hlen & Hkey & Hdef & _).
  split; [|split; [|split; [reflexivity|]]].
  - apply Hlen; [reflexivity | simpl; lia].
  - apply (Hkey [("S01", VInt 1); ("S09", VInt 2)]).
    exists "S09". simpl. split; [auto|]. intros [H|[H|[]]]; discriminate.
  - apply (Hdef [("S02", VList [VStr "Fp1"])] [VNone; VList [VStr "Fp1"]] eq_refl)
      with (id := "S01"); [reflexivity|].
    simpl. intros [H|[]]. discriminate.
Defined.

(** ** The participant identifier *)

Lemma split_index0 (c : ascii) (s : string) :
  index0 (split c s) = Ok (truncate_before c s).
Proof.
  induction s as [|x rest IH]; simpl; [reflexivity|].
  destruct (Ascii.eqb x c); [reflexivity|].
  destruct (split c rest) as [|piece pieces]; simpl in *; [discriminate|].
  now injection IH as ->.
Qed.

Lemma truncate_before_free (c : ascii) (s : string) :
  occurs c (truncate_before c s) = false.
Proof.
  induction s as [|x rest IH]; simpl; [reflexivity|].
  destruct (Ascii.eqb x c) eqn:E; simpl; [reflexivity|]. now rewrite E.
Qed.

Lemma truncate_before_prefix (c : ascii) (s : string) :
  exists rest, s = (truncate_before c s ++ rest)%string
    /\ (rest = EmptyString \/ exists r, rest = String c r).
Proof.
  induction s as [|x s IH]; simpl.
  - exists EmptyString. auto.
  - destruct (Ascii.eqb_spec x c) as [->|Hne].
    + exists (String c s). split; [reflexivity | right; now exists s].
    + destruct IH as [rest [Heq Hrest]]. exists rest. simpl. split; [congruence | assumption].
Qed.

Lemma slice_from_app (pre post : string) :
  slice_from (String.length pre) (pre ++ post)%string = post.
Proof. induction pre as [|x pre IH]; simpl; [now destruct post | assumption]. Qed.

(** [rfind] finds the last occurrence. *)
Lemma rfind_last (c : ascii) (s : string) :
  (rfind c s = (-1)%Z /\ occurs c s = false)
  \/ exists pre post, s = (pre ++ String c post)%string
       /\ rfind c s = Z.of_nat (String.length pre) /\ occurs c post = false.
Proof.
  induction s as [|x s IH]; simpl.
  - now left.
  - destruct IH as [[Hr Hocc]|[pre [post (Hs & Hr & Hocc)]]]; rewrite Hr.
    + simpl. destruct (Ascii.eqb_spec x c) as [->|Hne].
      * right. exists EmptyString, s. auto.
      * left. simpl. auto.
    + destruct (Z.leb_spec 0 (Z.of_nat (String.length pre))); [|lia].
      right. exists (String x pre), post. simpl. subst s. repeat split; [lia | assumption].
Qed.

Lemma basename_last_component (p : string) :
  exists dir, p = (dir ++ basename p)%string
    /\ occurs "/" (basename p) = false
    /\ (dir = EmptyString \/ exists d, dir = (d ++ "/")%string).
Proof.
  unfold basename.
  destruct (rfind_last "/" p) as [[Hr Hocc]|[pre [post (Hp & Hr & Hocc)]]]; rewrite Hr.
  - exists EmptyString. simpl. auto.
  - exists (pre ++ "/")%string.
    replace (Z.to_nat (Z.of_nat (String.length pre) + 1)) with (String.length (pre ++ "/")%string).
    + assert (Hp' : p = ((pre ++ "/") ++ post)%string).
      { rewrite Hp. clear. induction pre; simpl; [reflexivity | now f_equal]. }
      rewrite Hp' at 2 3. rewrite slice_from_app.
      split; [assumption | split; [assumption | right; now exists pre]].
    + clear. induction pre; simpl in *; lia.
Qed.

(** C7.  The participant identifier of a recording file is its base
    name (what follows the last "/" of the path) cut before its first
    "."; the path ".../S01.vhdr" gives "S01". *)
Theorem participant_id_is_stem (p : string) :
  get_participant_id (VStr p) = Ok (truncate_before "." (basename p))
  /\ occurs "." (truncate_before "." (basename p)) = false
  /\ (exists rest, basename p = (truncate_before "." (basename p) ++ rest)%string
        /\ (rest = EmptyString \/ exists r, rest = String "." r))
  /\ (exists dir, p = (dir ++ basename p)%string
        /\ occurs "/" (basename p) = false
        /\ (dir = EmptyString \/ exists d, dir = (d ++ "/")%string))
  /\ get_participant_id (VStr "/data/raw/S01.vhdr") = Ok "S01".
Proof.
  split; [|split; [|split; [|split]]].
  - apply split_index0.
  - apply truncate_before_free.
  - apply truncate_before_prefix.
  - apply basename_last_component.
  - reflexivity.
Qed.

(** ** The pipeline monad *)

Section PipelineFacts.

Context `{C : Collaborators}.

Lemma bind_ext {A B} (m : M A) (k1 k2 : A -> M B) (st : state) :
  (forall a st', k1 a st' = k2 a st') -> bind m k1 st = bind m k2 st.
Proof.
  intros Hk. unfold bind. destruct (m st) as [st' [a|e|]]; auto.
Qed.

Lemma world_only_ret {A} (a : A) : world_only (ret a).
Proof. intros st st' Hw. cbn. repeat split; auto; discriminate. Qed.

Lemma world_only_call {A} (c : effect world A) : world_only (call c).
Proof.
  intros st st' Hw. unfold call. rewrite <- Hw.
  destruct (c (st_world st)) as [w [a|e]]; cbn; repeat split; auto; discriminate.
Qed.

Lemma world_only_lift {A} (r : result A) : world_only (lift r).
Proof.
  intros st st' Hw. unfold lift.
  destruct r as [a|e]; cbn; repeat split; auto; discriminate.
Qed.

Lemma world_only_bind {A B} (m : M A) (k : A -> M B) :
  world_only m -> (forall a, world_only (k a)) -> world_only (bind m k).
Proof.
  intros Hm Hk st st' Hw. unfold bind.
  destruct (Hm st st' Hw) as (Ho & Hw1 & Hh & Hc & Hfin).
  destruct (Hm st' st (eq_sym Hw)) as (_ & _ & Hh' & Hc' & _).
  destruct (m st) as [st1 o1], (m st') as [st1' o1']. cbn in *. subst o1'.
  destruct o1 as [a|e|]; cbn.
  - destruct (Hk a st1 st1' Hw1) as (Ho2 & Hw2 & Hh2 & Hc2 & Hfin2).
    repeat split; try assumption; congruence.
  - repeat split; try assumption; discriminate.
  - contradiction.
Qed.

Lemma world_only_if {A} (b : bool) (m1 m2 : M A) :
  world_only m1 -> world_only m2 -> world_only (if b then m1 else m2).
Proof. now destruct b. Qed.

End PipelineFacts.

(** The stages act on the world only. *)
Ltac solve_world_only :=
  repeat first
    [ apply world_only_ret | apply world_only_call | apply world_only_lift
    | apply world_only_bind; [|intros ?]
    | apply world_only_if
    | match goal with
      | |- world_only (let '(_, _) := ?p in _) => destruct p
      | |- world_only (match ?b with true => _ | false => _ end) => destruct b
      end ].

Section StageFacts.

Context `{C : Collaborators}.

Lemma downsample_world_only raw sfreq : world_only (downsample raw sfreq).
Proof. unfold downsample. solve_world_only. Qed.

Lemma interpolate_bad_channels_world_only raw bad_channels :
  world_only (interpolate_bad_channels raw bad_channels).
Proof. unfold interpolate_bad_channels. solve_world_only. Qed.

Lemma correct_ocular_world_only raw ocular_correction :
  world_only (correct_ocular raw ocular_correction).
Proof. unfold correct_ocular. solve_world_only. Qed.

Lemma resolve_events_world_only raw triggers : world_only (resolve_events raw triggers).
Proof. unfold resolve_events. solve_world_only. Qed.

Lemma extract_epochs_world_only raw events event_id a :
  world_only (extract_epochs raw events event_id a).
Proof. unfold extract_epochs. solve_world_only. Qed.

Lemma fuse_metadata_world_only epochs participant_id a :
  world_only (fuse_metadata epochs participant_id a).
Proof. unfold fuse_metadata. solve_world_only. Qed.

Lemma stages_until_detection_world_only a config :
  world_only (stages_until_detection a config).
Proof.
  unfold stages_until_detection.
  repeat first
    [ apply downsample_world_only | apply interpolate_bad_channels_world_only
    | apply correct_ocular_world_only | apply resolve_events_world_only
    | apply extract_epochs_world_only | apply fuse_metadata_world_only
    | progress solve_world_only ].
Qed.

Lemma second_part_world_only a fr : world_only (second_part a fr).
Proof. unfold second_part. solve_world_only. Qed.

End StageFacts.

(** ** One pass *)

Section PassFacts.

Context `{C : Collaborators}.

Lemma first_part_unfold a st :
  first_part a st = stages_until_detection a (length (st_heap st)) (entered a st).
Proof. reflexivity. Qed.

Lemma first_part_store a st :
  st_heap (fst (first_part a st)) = st_heap st ++ [locals a]
  /\ st_calls (fst (first_part a st)) = st_calls st ++ [a]
  /\ snd (first_part a st) <> Unfinished.
Proof.
  rewrite first_part_unfold.
  destruct (stages_until_detection_world_only a (length (st_heap st))
              (entered a st) (entered a st) eq_refl) as (_ & _ & Hh & Hc & Hfin).
  auto.
Qed.

Lemma bind_returns {A B} (m : M A) (k : A -> M B) st st' b :
  bind m k st = (st', Returns b) ->
  exists st1 a, m st = (st1, Returns a) /\ k a st1 = (st', Returns b).
Proof.
  unfold bind. destruct (m st) as [st1 [a|e|]]; try discriminate.
  intros H. now exists st1, a.
Qed.

Lemma interpolate_bad_channels_auto raw bad_channels st st' v :
  interpolate_bad_channels raw bad_channels st = (st', Returns v) ->
  eq_str v "auto" = eq_str bad_channels "auto".
Proof.
  unfold interpolate_bad_channels.
  destruct (negb (is_None bad_channels) && ne_str bad_channels "auto") eqn:Hc.
  - intros H.
    repeat (apply bind_returns in H; destruct H as (? & ? & _ & H)).
    injection H as _ <-.
    apply andb_prop in Hc. destruct Hc as [_ Hne].
    unfold ne_str in Hne. apply negb_true_iff in Hne. rewrite Hne.
    destruct bad_channels; try reflexivity; assumption.
  - intros [= _ <-]. reflexivity.
Qed.

Lemma first_part_frame a st st1 fr :
  first_part a st = (st1, Returns fr) ->
  fr_config fr = length (st_heap st)
  /\ eq_str (fr_bad_channels fr) "auto" = eq_str (bad_channels a) "auto".
Proof.
  rewrite first_part_unfold. unfold stages_until_detection. intros H.
  do 5 (apply bind_returns in H; destruct H as (? & ? & _ & H)).
  apply bind_returns in H. destruct H as (? & v & Hint & H).
  apply interpolate_bad_channels_auto in Hint.
  do 5 (apply bind_returns in H; destruct H as (? & ? & _ & H)).
  match type of H with context [let '(_, _) := ?p in _] => destruct p end.
  do 3 (apply bind_returns in H; destruct H as (? & ? & _ & H)).
  match type of H with context [let '(_, _) := ?p in _] => destruct p end.
  injection H as _ <-. cbn. auto.
Qed.

(** Unpacking the snapshot with another [bad_channels] gives the
    arguments with that [bad_channels]. *)
Lemma bind_parameters_locals v a :
  bind_parameters (dict_set "bad_channels" v (locals a)) = Ok (with_bad_channels v a).
Proof. destruct a. reflexivity. Qed.

Lemma locals_set_bad_channels v a :
  dict_set "bad_channels" v (locals a) = locals (with_bad_channels v a).
Proof. destruct a. reflexivity. Qed.

Lemma heap_after_first_part a st st1 fr :
  first_part a st = (st1, Returns fr) ->
  st_heap st1 = st_heap st ++ [locals a]
  /\ st_calls st1 = st_calls st ++ [a]
  /\ st_heap st1 !! fr_config fr = Some (locals a).
Proof.
  intros H. destruct (first_part_frame _ _ _ _ H) as [Hcfg _].
  destruct (first_part_store a st) as (Hh & Hc & _). rewrite H in Hh, Hc. cbn in Hh, Hc.
  repeat split; try assumption.
  rewrite Hh, Hcfg. rewrite lookup_app_r by lia. now rewrite Nat.sub_diag.
Qed.

Lemma restart_arguments_run a st1 fr :
  st_heap st1 !! fr_config fr = Some (locals a) ->
  let detected := VList (map VStr (fr_auto_channels fr)) in
  restart_arguments fr st1
  = (stored (fr_config fr) "bad_channels" detected st1,
     Returns (with_bad_channels detected a)).
Proof.
  intros Hcfg detected.
  unfold restart_arguments, bind, dict_store, dict_load, lift, stored.
  cbn [st_heap st_world st_calls].
  rewrite list_lookup_alter_eq, Hcfg. cbn [fmap option_fmap option_map].
  fold detected. now rewrite bind_parameters_locals.
Qed.

(** An invocation whose [bad_channels] is not "auto" is a single pass:
    it does not call the function again. *)
Lemma body_single_pass a (self : args -> M output) st :
  eq_str (bad_channels a) "auto" = false ->
  participant_pipeline_body self a st
  = bind (first_part a) (fun fr => second_part a fr) st.
Proof.
  intros Hna. unfold participant_pipeline_body, bind.
  destruct (first_part a st) as [st1 [fr|e|]] eqn:H; try reflexivity.
  destruct (first_part_frame _ _ _ _ H) as [_ Hb]. now rewrite Hb, Hna.
Qed.

Lemma single_pass_store a st :
  let r := bind (first_part a) (fun fr => second_part a fr) st in
  st_heap (fst r) = st_heap st ++ [locals a]
  /\ st_calls (fst r) = st_calls st ++ [a]
  /\ snd r <> Unfinished.
Proof.
  cbn. unfold bind.
  destruct (first_part_store a st) as (Hh & Hc & Hfin).
  destruct (first_part a st) as [st1 [fr|e|]]; cbn in *;
    [|repeat split; auto; discriminate | contradiction].
  destruct (second_part_world_only a fr st1 st1 eq_refl) as (_ & _ & Hh2 & Hc2 & Hfin2).
  rewrite Hh2, Hc2. auto.
Qed.

End PassFacts.

(** ** The restart *)

Section Restart.

Context `{C : Collaborators}.

Lemma returned_as_is (m : M output) (st : state) :
  bind m (fun returned =>
            let '(trials, evokeds, evokeds_df, config) := returned in
            ret (trials, evokeds, evokeds_df, config)) st
  = m st.
Proof.
  unfold bind, ret. destruct (m st) as [st' [[[[t e] d] c]|e|]]; reflexivity.
Qed.

Lemma restart_step (self : args -> M output) a st st1 fr :
  eq_str (bad_channels a) "auto" = true ->
  first_part a st = (st1, Returns fr) ->
  fr_auto_channels fr <> [] ->
  let detected := VList (map VStr (fr_auto_channels fr)) in
  participant_pipeline_body self a st
  = self (with_bad_channels detected a) (stored (fr_config fr) "bad_channels" detected st1).
Proof.
  intros Hauto Hfirst Hdet detected.
  destruct (first_part_frame _ _ _ _ Hfirst) as [_ Hb].
  destruct (heap_after_first_part _ _ _ _ Hfirst) as (_ & _ & Hcfg).
  unfold participant_pipeline_body. unfold bind at 1. rewrite Hfirst, Hb, Hauto.
  destruct (fr_auto_channels fr) as [|ch chs] eqn:Hchs; [contradiction|].
  unfold bind at 1. rewrite (restart_arguments_run a st1 fr Hcfg). rewrite Hchs.
  apply returned_as_is.
Qed.

(** C1.  When [bad_channels] is "auto" and the detector of the first
    pass reports a non-empty list of channels, the pipeline is invoked
    once more, with [bad_channels] set to that list; this second pass
    does not call the function again, whatever its own detector
    reports, so that a call depth of two is always enough; and the
    result is the result of the second pass. *)
Theorem restart_runs_once_more (depth : nat) (a : args) (st st1 : state) (fr : frame) :
  eq_str (bad_channels a) "auto" = true ->
  first_part a st = (st1, Returns fr) ->
  fr_auto_channels fr <> [] ->
  let detected := VList (map VStr (fr_auto_channels fr)) in
  let a2 := with_bad_channels detected a in
  let st2 := stored (fr_config fr) "bad_channels" detected st1 in
  let run := participant_pipeline (S (S depth)) a st in
  run = participant_pipeline (S depth) a2 st2
  /\ (forall self, participant_pipeline_body self a2 st2 = run)
  /\ st_calls (fst run) = st_calls st ++ [a; a2]
  /\ snd run <> Unfinished.
Proof.
  intros Hauto Hfirst Hdet detected a2 st2 run.
  assert (Hrun : run = participant_pipeline (S depth) a2 st2).
  { subst run. change (participant_pipeline (S (S depth)) a)
      with (participant_pipeline_body (participant_pipeline (S depth)) a).
    now apply restart_step. }
  assert (Hsingle : forall self,
    participant_pipeline_body self a2 st2
    = bind (first_part a2) (fun fr => second_part a2 fr) st2)
    by (intros self; now apply body_single_pass).
  split; [exact Hrun|]. split.
  { intros self. rewrite Hrun. cbn [participant_pipeline]. now rewrite !Hsingle. }
  rewrite Hrun. cbn [participant_pipeline]. rewrite Hsingle.
  destruct (single_pass_store a2 st2) as (_ & Hc & Hfin).
  destruct (heap_after_first_part _ _ _ _ Hfirst) as (_ & Hc1 & _).
  split; [|exact Hfin].
  rewrite Hc. subst st2. cbn [stored st_calls]. rewrite Hc1, <- app_assoc. reflexivity.
Qed.

(** C2, amended.  In the restart branch no copy of the snapshot is
    made: the detected channels are written into the snapshot that was
    taken at entry.  Afterwards that snapshot holds the detected list
    under "bad_channels", so it is no longer the snapshot taken at
    entry; its other fields, the other objects of the store and the
    world are as before; and the arguments of the restart are the
    arguments of this pass with the detected list as [bad_channels]. *)
Theorem restart_writes_into_snapshot (a : args) (st st1 : state) (fr : frame) :
  eq_str (bad_channels a) "auto" = true ->
  first_part a st = (st1, Returns fr) ->
  let detected := VList (map VStr (fr_auto_channels fr)) in
  let st2 := fst (restart_arguments fr st1) in
  st_heap st1 !! fr_config fr = Some (locals a)
  /\ snd (restart_arguments fr st1) = Returns (with_bad_channels detected a)
  /\ st_heap st2 !! fr_config fr = Some (dict_set "bad_channels" detected (locals a))
  /\ st_heap st2 !! fr_config fr <> Some (locals a)
  /\ dict_get "bad_channels" (dict_set "bad_channels" detected (locals a)) = Some detected
  /\ (forall k, k <> "bad_channels" ->
        dict_get k (dict_set "bad_channels" detected (locals a)) = dict_get k (locals a))
  /\ (forall ref, ref <> fr_config fr -> st_heap st2 !! ref = st_heap st1 !! ref)
  /\ st_world st2 = st_world st1.
Proof.
  intros Hauto Hfirst detected st2.
  destruct (heap_after_first_part _ _ _ _ Hfirst) as (_ & _ & Hcfg).
  subst st2. rewrite (restart_arguments_run a st1 fr Hcfg). cbn [fst snd stored st_heap st_world].
  fold detected.
  assert (Hnew : alter (dict_set "bad_channels" detected) (fr_config fr) (st_heap st1)
                   !! fr_config fr
                 = Some (dict_set "bad_channels" detected (locals a))).
  { now rewrite list_lookup_alter_eq, Hcfg. }
  split; [exact Hcfg|]. split; [reflexivity|]. split; [exact Hnew|].
  split; [|split; [|split; [|split; [|reflexivity]]]].
  - rewrite Hnew. intros [= Heq].
    assert (Hget : dict_get "bad_channels" (dict_set "bad_channels" detected (locals a))
                   = dict_get "bad_channels" (locals a)) by now rewrite Heq.
    rewrite dict_get_set_same in Hget. cbn in Hget.
    injection Hget as Hget. rewrite <- Hget in Hauto. discriminate.
  - apply dict_get_set_same.
  - intros k Hk. now apply dict_get_set_other.
  - intros ref Href. apply list_lookup_alter_ne. congruence.
Qed.

(** C8.  When [bad_channels] is "auto" and the detector reports no
    channel, the pass goes on without a restart, and the snapshot it
    returns has the empty list, not "auto", under "bad_channels". *)
Theorem no_detection_no_restart (depth : nat) (a : args) (st st1 : state) (fr : frame) :
  eq_str (bad_channels a) "auto" = true ->
  first_part a st = (st1, Returns fr) ->
  fr_auto_channels fr = [] ->
  let run := participant_pipeline (S depth) a st in
  run = second_part a fr (stored (fr_config fr) "bad_channels" (VList []) st1)
  /\ st_calls (fst run) = st_calls st ++ [a]
  /\ snd run <> Unfinished
  /\ forall trials evokeds evokeds_df config,
       snd run = Returns (trials, evokeds, evokeds_df, config) ->
       st_heap (fst run) !! config = Some (dict_set "bad_channels" (VList []) (locals a))
       /\ dict_get "bad_channels" (dict_set "bad_channels" (VList []) (locals a))
          = Some (VList []).
Proof.
  intros Hauto Hfirst Hnone run.
  destruct (first_part_frame _ _ _ _ Hfirst) as [Hconfig Hb].
  destruct (heap_after_first_part _ _ _ _ Hfirst) as (Hh1 & Hc1 & Hcfg).
  assert (Hrun : run = second_part a fr (stored (fr_config fr) "bad_channels" (VList []) st1)).
  { subst run. cbn [participant_pipeline]. unfold participant_pipeline_body.
    unfold bind at 1. rewrite Hfirst, Hb, Hauto, Hnone. reflexivity. }
  set (st2 := stored (fr_config fr) "bad_channels" (VList []) st1) in *.
  destruct (second_part_world_only a fr st2 st2 eq_refl) as (_ & _ & Hh & Hc & Hfin).
  rewrite Hrun. split; [reflexivity|]. split; [now rewrite Hc|].
  split; [exact Hfin|]. intros trials evokeds evokeds_df config H. split.
  - rewrite Hh.
    assert (Hcfg' : config = fr_config fr).
    { destruct (second_part a fr st2) as [st3 o] eqn:E. cbn in H. subst o.
      unfold second_part in E.
      do 4 (apply bind_returns in E; destruct E as (? & ? & _ & E)).
      apply bind_returns in E; destruct E as (? & [? ?] & _ & E).
      apply bind_returns in E; destruct E as (? & ? & _ & E).
      now injection E as _ _ _ _ <-. }
    subst config st2. cbn [stored st_heap]. now rewrite list_lookup_alter_eq, Hcfg.
  - apply dict_get_set_same.
Qed.

(** Every invocation ends within two passes. *)
Lemma two_passes_suffice (depth : nat) (a : args) (st : state) :
  snd (participant_pipeline (S (S depth)) a st) <> Unfinished.
Proof.
  destruct (eq_str (bad_channels a) "auto") eqn:Hauto.
  - destruct (first_part a st) as [st1 [fr|e|]] eqn:Hfirst.
    + destruct (fr_auto_channels fr) as [|ch chs] eqn:Hdet.
      * cbn [participant_pipeline]. unfold participant_pipeline_body, bind at 1.
        destruct (first_part_frame _ _ _ _ Hfirst) as [_ Hb].
        rewrite Hfirst, Hb, Hauto, Hdet.
        unfold bind, dict_store.
        match goal with |- context [second_part a fr ?s] =>
          destruct (second_part_world_only a fr s s eq_refl) as (_ & _ & _ & _ & Hfin)
        end.
        exact Hfin.
      * change (participant_pipeline (S (S depth)) a)
          with (participant_pipeline_body (participant_pipeline (S depth)) a).
        rewrite (restart_step _ a st st1 fr Hauto Hfirst) by (rewrite Hdet; discriminate).
        cbn [participant_pipeline]. rewrite body_single_pass by reflexivity.
        apply single_pass_store.
    + cbn [participant_pipeline]. unfold participant_pipeline_body, bind at 1.
      rewrite Hfirst. discriminate.
    + destruct (first_part_store a st) as (_ & _ & Hfin). rewrite Hfirst in Hfin.
      now contradiction Hfin.
  - cbn [participant_pipeline]. rewrite body_single_pass by assumption.
    apply single_pass_store.
Qed.

End Restart.

(** ** Triggers *)

Section Triggers.

Context `{C : Collaborators}.



End Triggers.

(** ** A channel name for [bad_channels] *)

Section ChannelName.

Context `{C : Collaborators}.





End ChannelName.


(** ** The properties on the sample collaborators *)

Lemma sample_first_part (detected : list string) :
  exists st1 fr,
    first_part (C := Sample.collaborators detected) Sample.arguments (Sample.start detected)
    = (st1, Returns fr)
    /\ fr_auto_channels fr = detected.
Proof. do 2 eexists. split; vm_compute; reflexivity. Defined.

Lemma restart_runs_once_more_witness :
  st_calls (fst (participant_pipeline (C := Sample.collaborators ["Fp1"]) 2
                   Sample.arguments (Sample.start ["Fp1"])))
  = [Sample.arguments; with_bad_channels (VList [VStr "Fp1"]) Sample.arguments]
  /\ snd (participant_pipeline (C := Sample.collaborators ["Fp1"]) 2
            Sample.arguments (Sample.start ["Fp1"])) <> Unfinished.
Proof.
  destruct (sample_first_part ["Fp1"]) as (st1 & fr & Hfirst & Hdet).
  destruct (restart_runs_once_more (C := Sample.collaborators ["Fp1"]) 0
              Sample.arguments (Sample.start ["Fp1"]) st1 fr eq_refl Hfirst)
    as (_ & _ & Hcalls & Hfin).
  - rewrite Hdet. discriminate.
  - rewrite Hdet in Hcalls. split; [exact Hcalls | exact Hfin].
Defined.

(** C2, as the claim states it, fails: after the arguments of the
    restart have been produced, the snapshot taken at entry is no
    longer what it was. *)
Lemma snapshot_is_not_left_unchanged :
  exists st1 fr st2 kwargs,
    eq_str (bad_channels Sample.arguments) "auto" = true
    /\ first_part (C := Sample.collaborators ["Fp1"]) Sample.arguments (Sample.start ["Fp1"])
       = (st1, Returns fr)
    /\ fr_auto_channels fr = ["Fp1"]
    /\ restart_arguments fr st1 = (st2, Returns kwargs)
    /\ st_heap st1 !! fr_config fr = Some (locals Sample.arguments)
    /\ st_heap st2 !! fr_config fr <> Some (locals Sample.arguments).
Proof.
  do 4 eexists.
  split; [reflexivity|].
  split; [vm_compute; reflexivity|].
  split; [vm_compute; reflexivity|].
  split; [vm_compute; reflexivity|].
  split; [vm_compute; reflexivity|].
  vm_compute. discriminate.
Qed.

Lemma restart_writes_into_snapshot_witness :
  exists st1 fr,
    first_part (C := Sample.collaborators ["Fp1"]) Sample.arguments (Sample.start ["Fp1"])
    = (st1, Returns fr)
    /\ snd (restart_arguments fr st1)
       = Returns (with_bad_channels (VList [VStr "Fp1"]) Sample.arguments)
    /\ st_heap (fst (restart_arguments fr st1)) !! fr_config fr
       = Some (dict_set "bad_channels" (VList [VStr "Fp1"]) (locals Sample.arguments)).
Proof.
  destruct (sample_first_part ["Fp1"]) as (st1 & fr & Hfirst & Hdet).
  exists st1, fr. split; [exact Hfirst|].
  destruct (restart_writes_into_snapshot (C := Sample.collaborators ["Fp1"])
              Sample.arguments (Sample.start ["Fp1"]) st1 fr eq_refl Hfirst)
    as (_ & Hargs & Hnew & _).
  rewrite Hdet in Hargs, Hnew. split; [exact Hargs | exact Hnew].
Defined.

Lemma no_detection_no_restart_witness :
  st_calls (fst (participant_pipeline (C := Sample.collaborators []) 1
                   Sample.arguments (Sample.start [])))
  = [Sample.arguments]
  /\ st_heap (fst (participant_pipeline (C := Sample.collaborators []) 1
                     Sample.arguments (Sample.start []))) !! 0%nat
     = Some (dict_set "bad_channels" (VList []) (locals Sample.arguments)).
Proof.
  destruct (sample_first_part []) as (st1 & fr & Hfirst & Hdet).
  destruct (no_detection_no_restart (C := Sample.collaborators []) 0
              Sample.arguments (Sample.start []) st1 fr eq_refl Hfirst Hdet)
    as (_ & Hcalls & _ & Hcfg).
  split; [exact Hcalls|].
  apply (Hcfg tt tt tt 0%nat). vm_compute. reflexivity.
Defined.



(** * Further properties *)

(** ** [check_participant_input]: what the dict branch returns *)

Lemma dict_get_None {V} (k : string) (d : dict_of V) :
  dict_get k d = None <-> ~ In k (dict_keys d).
Proof.
  induction d as [|[k0 v0] d IH]; simpl; [tauto|].
  destruct (String.eqb_spec k0 k) as [->|Hne].
  - split; [discriminate | tauto].
  - rewrite IH. tauto.
Qed.

Lemma assign_values_all_known (ids : list string) (items pd : dict) :
  (forall k, In k (dict_keys items) -> In k ids) ->
  exists pd', assign_values ids items pd = Ok pd'.
Proof.
  revert pd. induction items as [|[k v] items IH]; intros pd Hknown; simpl.
  - now exists pd.
  - assert (Hk : str_in k ids = true) by (apply str_in_In, Hknown; now left).
    rewrite Hk. apply IH. intros k' Hk'. apply Hknown. now right.
Qed.

Lemma assign_values_raise (ids : list string) (items pd : dict) (e : exn) :
  assign_values ids items pd = Raise e ->
  (exists k, In k (dict_keys items) /\ ~ In k ids) /\ exists msg, e = AssertionError msg.
Proof.
  revert pd. induction items as [|[k v] items IH]; intros pd; simpl; [discriminate|].
  destruct (str_in k ids) eqn:Hk.
  - intros H. destruct (IH _ H) as [[k' [Hin Hun]] Hmsg].
    split; [exists k'; auto | assumption].
  - intros [= <-]. split; [|eauto].
    exists k. split; [now left|]. intros Hin. apply str_in_In in Hin. congruence.
Qed.

Lemma assign_values_get (ids : list string) (items pd pd' : dict) :
  assign_values ids items pd = Ok pd' ->
  List.NoDup (dict_keys items) ->
  forall k, dict_get k pd'
            = match dict_get k items with Some v => Some v | None => dict_get k pd end.
Proof.
  revert pd. induction items as [|[id v] items IH]; intros pd; simpl.
  - now intros [= <-].
  - destruct (str_in id ids); [|discriminate].
    intros Hrun Hnd k. inversion Hnd as [|? ? Hfresh Hnd']; subst.
    rewrite (IH _ Hrun Hnd' k).
    destruct (String.eqb_spec id k) as [->|Hne].
    + apply dict_get_None in Hfresh. rewrite Hfresh. apply dict_get_set_same.
    + destruct (dict_get k items); [reflexivity|].
      apply dict_get_set_other. congruence.
Qed.

Lemma none_dict_get (ids : list string) (k : string) :
  In k ids -> dict_get k (none_dict ids) = Some VNone.
Proof.
  intros Hin. apply none_dict_keys in Hin.
  destruct (dict_get k (none_dict ids)) as [v|] eqn:E.
  - f_equal. pose proof (none_dict_values ids) as Hall.
    rewrite Forall_forall in Hall.
    assert (Hkv : (k, v) ∈ none_dict ids).
    { clear -E. induction (none_dict ids) as [|[k0 v0] d IH]; simpl in E; [discriminate|].
      destruct (String.eqb_spec k0 k) as [->|Hne].
      - injection E as ->. left.
      - right. auto. }
    exact (Hall _ Hkv).
  - apply dict_get_None in E. contradiction.
Qed.

Lemma dict_values_by_keys (d : dict) :
  List.NoDup (dict_keys d) ->
  dict_values d = map (fun k => default VNone (dict_get k d)) (dict_keys d).
Proof.
  unfold dict_values, dict_keys.
  induction d as [|[k v] d IH]; [reflexivity|].
  cbn [map fst snd]. intros Hnd. inversion Hnd as [|? ? Hfresh Hnd']; subst.
  cbn [dict_get]. rewrite String.eqb_refl. cbn [default]. f_equal.
  rewrite (IH Hnd').
  apply map_ext_in. intros k' Hk'.
  destruct (String.eqb_spec k k') as [->|Hne]; [contradiction | reflexivity].
Qed.

(** X1.  For distinct participant ids and a dict whose keys are all
    participant ids, the result lists, in the order of the ids, the
    value the dict gives for each id, and [None] for an id that is no
    key. *)
Theorem check_participant_input_dict_entries (items : dict) (participant_ids : list string) :
  List.NoDup participant_ids ->
  List.NoDup (dict_keys items) ->
  (forall k, In k (dict_keys items) -> In k participant_ids) ->
  check_participant_input (VDict items) participant_ids
  = Ok (map (fun id => default VNone (dict_get id items)) participant_ids).
Proof.
  intros Hids Hkeys Hknown. simpl.
  destruct (assign_values_all_known participant_ids items (none_dict participant_ids) Hknown)
    as [pd Hrun].
  rewrite Hrun. simpl. f_equal.
  destruct (assign_values_known _ _ _ _ Hrun) as [Hk _].
  { intros k Hin. now apply none_dict_keys. }
  rewrite (none_dict_keys_NoDup _ Hids) in Hk.
  rewrite dict_values_by_keys by (now rewrite Hk).
  rewrite Hk. apply map_ext_in. intros id Hid.
  rewrite (assign_values_get _ _ _ _ Hrun Hkeys id), (none_dict_get _ _ Hid).
  now destruct (dict_get id items).
Qed.

Lemma check_participant_input_dict_entries_witness :
  check_participant_input (VDict [("S03", VStr "Cz"); ("S01", VList [VStr "Fp1"])])
    ["S01"; "S02"; "S03"]
  = Ok [VList [VStr "Fp1"]; VNone; VStr "Cz"].
Proof.
  apply (check_participant_input_dict_entries
           [("S03", VStr "Cz"); ("S01", VList [VStr "Fp1"])] ["S01"; "S02"; "S03"]).
  - repeat constructor; simpl; intuition discriminate.
  - repeat constructor; simpl; intuition discriminate.
  - simpl. intuition.
Defined.

Lemma none_dict_length (ids : list string) : length (none_dict ids) <= length ids.
Proof.
  unfold none_dict.
  cut (forall acc : dict,
         length (fold_left (fun d id => dict_set id VNone d) ids acc)
         <= length acc + length ids).
  { intros H. apply (H []). }
  induction ids as [|id ids IH]; intros acc; simpl; [lia|].
  etransitivity; [apply IH|].
  assert (length (dict_set id VNone acc) <= S (length acc)); [|lia].
  clear. induction acc as [|[k v] acc IH]; simpl; [lia|].
  destruct (String.eqb k id); simpl; lia.
Qed.

(** X2.  Whenever [check_participant_input] returns, it returns one
    entry per participant: never more entries than participant ids,
    and exactly as many when the input is no dict or the ids are
    distinct. *)
Theorem check_participant_input_one_entry_each (input : value)
    (participant_ids : list string) (entries : list value) :
  check_participant_input input participant_ids = Ok entries ->
  length entries <= length participant_ids
  /\ (isinstance_dict input = false \/ List.NoDup participant_ids ->
      length entries = length participant_ids).
Proof.
  intros Hrun.
  assert (Hother : isinstance_dict input = false ->
                   length entries = length participant_ids).
  { intros Hd. unfold check_participant_input in Hrun.
    destruct (is_nested_list input) eqn:Hn.
    - destruct input; try discriminate.
      destruct (Nat.eqb_spec (length elems) (length participant_ids)); [|discriminate].
      now injection Hrun as <-.
    - destruct input; try discriminate; injection Hrun as <-; apply length_replicate. }
  destruct input; try (split; [rewrite Hother by reflexivity; lia | intros _; now apply Hother]).
  simpl in Hrun.
  destruct (assign_values participant_ids items (none_dict participant_ids))
    as [pd|e] eqn:Hpd; simpl in Hrun; [|discriminate].
  injection Hrun as <-.
  destruct (assign_values_known _ _ _ _ Hpd) as [Hk _].
  { intros k Hin. now apply none_dict_keys. }
  assert (Hlen : length (dict_values pd) = length (none_dict participant_ids)).
  { unfold dict_values. rewrite length_map.
    rewrite <- (length_map fst pd), <- (length_map fst (none_dict participant_ids)).
    unfold dict_keys in Hk. now rewrite Hk. }
  split.
  - rewrite Hlen. apply none_dict_length.
  - intros [Hd|Hnd]; [discriminate|].
    rewrite Hlen, <- (length_map fst). fold (dict_keys (none_dict participant_ids)).
    now rewrite none_dict_keys_NoDup.
Qed.

Lemma check_participant_input_one_entry_each_witness :
  length [VNone; VList [VStr "Fp1"]] = length ["S01"; "S02"].
Proof.
  apply (check_participant_input_one_entry_each (VDict [("S02", VList [VStr "Fp1"])])
           ["S01"; "S02"] [VNone; VList [VStr "Fp1"]] eq_refl).
  right. repeat constructor; simpl; intuition discriminate.
Defined.

(** X3.  The result for a list override is accepted as it is when it
    is given as the override again: for lists the function is
    idempotent. *)
Theorem check_participant_input_list_idempotent (elems : list value)
    (participant_ids : list string) (entries : list value) :
  check_participant_input (VList elems) participant_ids = Ok entries ->
  check_participant_input (VList entries) participant_ids = Ok entries.
Proof.
  unfold check_participant_input.
  destruct (is_nested_list (VList elems)) eqn:Hn.
  - destruct (Nat.eqb_spec (length elems) (length participant_ids)) as [Hlen|]; [|discriminate].
    intros [= <-]. rewrite Hn.
    now destruct (Nat.eqb_spec (length elems) (length participant_ids)).
  - intros [= <-].
    destruct participant_ids as [|id ids]; [reflexivity|].
    simpl. rewrite length_replicate, Nat.eqb_refl. reflexivity.
Qed.

Lemma check_participant_input_list_idempotent_witness :
  check_participant_input (VList [VList [VStr "Fp1"]; VList [VStr "Fp1"]]) ["S01"; "S02"]
  = Ok [VList [VStr "Fp1"]; VList [VStr "Fp1"]].
Proof.
  apply (check_participant_input_list_idempotent [VStr "Fp1"] ["S01"; "S02"]).
  reflexivity.
Defined.

(** X4.  [check_participant_input] raises in two cases only: a dict
    with a key that is no participant id, and a nested list whose
    length is not the number of participant ids; what it raises is an
    [AssertionError].  Scalars and flat lists are never refused. *)
Theorem check_participant_input_raises_iff (input : value) (participant_ids : list string) :
  ((exists e, check_participant_input input participant_ids = Raise e)
   <-> (exists items, input = VDict items
          /\ exists k, In k (dict_keys items) /\ ~ In k participant_ids)
       \/ (exists elems, input = VList elems /\ is_nested_list input = true
          /\ length elems <> length participant_ids))
  /\ forall e, check_participant_input input participant_ids = Raise e ->
       exists msg, e = AssertionError msg.
Proof.
  assert (Hdict : forall items e,
    check_participant_input (VDict items) participant_ids = Raise e ->
    (exists k, In k (dict_keys items) /\ ~ In k participant_ids)
    /\ exists msg, e = AssertionError msg).
  { intros items e. simpl.
    destruct (assign_values participant_ids items (none_dict participant_ids))
      as [pd|e'] eqn:Hpd; simpl; [discriminate|].
    intros [= <-]. eapply assign_values_raise. exact Hpd. }
  assert (Hlist : forall e,
    isinstance_dict input = false ->
    check_participant_input input participant_ids = Raise e ->
    (exists elems, input = VList elems /\ is_nested_list input = true
       /\ length elems <> length participant_ids)
    /\ exists msg, e = AssertionError msg).
  { intros e Hd. unfold check_participant_input.
    destruct (is_nested_list input) eqn:Hn; [|destruct input; discriminate].
    destruct input; try discriminate.
    destruct (Nat.eqb_spec (length elems) (length participant_ids)); [discriminate|].
    intros [= <-]. split; [exists elems; auto | eauto]. }
  split; [split|].
  - intros [e He]. destruct (isinstance_dict input) eqn:Hd.
    + destruct input; try discriminate. left. exists items. split; [reflexivity|].
      exact (proj1 (Hdict _ _ He)).
    + right. exact (proj1 (Hlist _ eq_refl He)).
  - intros [[items [-> Hunknown]]|[elems (-> & Hn & Hlen)]].
    + destruct (assign_values_unknown participant_ids items (none_dict participant_ids) Hunknown)
        as [id (_ & _ & Hr)].
      eexists. simpl. rewrite Hr. reflexivity.
    + eexists. unfold check_participant_input. rewrite Hn.
      destruct (Nat.eqb_spec (length elems) (length participant_ids)); [contradiction|].
      reflexivity.
  - intros e He. destruct (isinstance_dict input) eqn:Hd.
    + destruct input; try discriminate. exact (proj2 (Hdict _ _ He)).
    + exact (proj2 (Hlist _ eq_refl He)).
Qed.

Lemma check_participant_input_raises_iff_witness :
  exists e, check_participant_input (VList [VList [VStr "Fp1"]]) ["S01"; "S02"] = Raise e.
Proof.
  apply (proj1 (check_participant_input_raises_iff _ _)).
  right. exists [VList [VStr "Fp1"]]. split; [reflexivity|]. split; [reflexivity|].
  simpl. lia.
Defined.

(** ** The participant identifier of a composed path *)

Lemma occurs_app (c : ascii) (s t : string) :
  occurs c (s ++ t)%string = occurs c s || occurs c t.
Proof. induction s as [|x s IH]; simpl; [reflexivity|]. now rewrite IH, orb_assoc. Qed.

Lemma rfind_absent (c : ascii) (s : string) : occurs c s = false -> rfind c s = (-1)%Z.
Proof.
  induction s as [|x s IH]; simpl; [reflexivity|].
  intros H. apply orb_false_elim in H. destruct H as [Hx Hs].
  now rewrite (IH Hs), Hx.
Qed.

Lemma rfind_after (c : ascii) (pre s : string) :
  occurs c s = false ->
  rfind c (pre ++ String c s)%string = Z.of_nat (String.length pre).
Proof.
  intros Hs. induction pre as [|x pre IH].
  - simpl. now rewrite (rfind_absent _ _ Hs), Ascii.eqb_refl.
  - cbn [append rfind String.length]. rewrite IH.
    destruct (Z.leb_spec 0 (Z.of_nat (String.length pre))); lia.
Qed.

Lemma basename_after_slash (dir s : string) :
  occurs "/" s = false -> basename (dir ++ String "/" s)%string = s.
Proof.
  intros Hs. unfold basename. rewrite (rfind_after _ _ _ Hs).
  replace (Z.to_nat (Z.of_nat (String.length dir) + 1))
    with (String.length (dir ++ "/")%string).
  - replace (dir ++ String "/" s)%string with ((dir ++ "/") ++ s)%string.
    + apply slice_from_app.
    + clear. induction dir; simpl; [reflexivity | now f_equal].
  - clear. induction dir; simpl in *; lia.
Qed.

Lemma basename_plain (s : string) : occurs "/" s = false -> basename s = s.
Proof. intros Hs. unfold basename. now rewrite (rfind_absent _ _ Hs). Qed.

Lemma truncate_before_stops (c : ascii) (s r : string) :
  occurs c s = false -> truncate_before c (s ++ String c r)%string = s.
Proof.
  induction s as [|x s IH]; simpl.
  - now rewrite Ascii.eqb_refl.
  - intros H. apply orb_false_elim in H. destruct H as [Hx Hs].
    now rewrite Hx, (IH Hs).
Qed.

Lemma truncate_before_plain (c : ascii) (s : string) :
  occurs c s = false -> truncate_before c s = s.
Proof.
  induction s as [|x s IH]; simpl; [reflexivity|].
  intros H. apply orb_false_elim in H. destruct H as [Hx Hs].
  now rewrite Hx, (IH Hs).
Qed.

(** X5.  An identifier without "." and "/" is recovered from every
    path made of it: with or without a directory in front, with or
    without an extension behind (the extension may itself contain
    dots). *)
Theorem participant_id_of_composed_path (dir id ext : string) :
  occurs "." id = false ->
  occurs "/" id = false ->
  occurs "/" ext = false ->
  get_participant_id (VStr (dir ++ "/" ++ id ++ "." ++ ext)) = Ok id
  /\ get_participant_id (VStr (dir ++ "/" ++ id)) = Ok id
  /\ get_participant_id (VStr (id ++ "." ++ ext)) = Ok id
  /\ get_participant_id (VStr id) = Ok id.
Proof.
  intros Hdot Hslash Hext. unfold get_participant_id. rewrite !split_index0.
  assert (Hrest : occurs "/" (id ++ "." ++ ext)%string = false).
  { rewrite occurs_app, Hslash. simpl. exact Hext. }
  split; [|split; [|split]].
  - change (dir ++ "/" ++ id ++ "." ++ ext)%string
      with (dir ++ String "/" (id ++ String "." ext))%string.
    rewrite basename_after_slash by exact Hrest.
    now rewrite truncate_before_stops.
  - change (dir ++ "/" ++ id)%string with (dir ++ String "/" id)%string.
    rewrite basename_after_slash by exact Hslash.
    now rewrite truncate_before_plain.
  - rewrite basename_plain by exact Hrest.
    change (id ++ "." ++ ext)%string with (id ++ String "." ext)%string.
    now rewrite truncate_before_stops.
  - rewrite basename_plain by exact Hslash. now rewrite truncate_before_plain.
Qed.

Lemma participant_id_of_composed_path_witness :
  get_participant_id (VStr "/data/exp.1/S01.eeg.vhdr") = Ok "S01".
Proof.
  exact (proj1 (participant_id_of_composed_path "/data/exp.1" "S01" "eeg.vhdr"
                  eq_refl eq_refl eq_refl)).
Defined.

(** ** Arguments and snapshot *)

(** X6.  Unpacking the snapshot of an invocation gives back its
    arguments; the keys of a snapshot are the parameter names; a
    dictionary with any other key cannot be unpacked into a call; and
    the empty dictionary gives the defaults. *)
Theorem snapshot_unpacks_to_arguments (a : args) :
  bind_parameters (locals a) = Ok a
  /\ dict_keys (locals a) = parameter_names
  /\ (forall kwargs k, In k (dict_keys kwargs) -> ~ In k parameter_names ->
        bind_parameters kwargs = Raise TypeError)
  /\ bind_parameters [] = Ok default_args.
Proof.
  split; [destruct a; reflexivity|]. split; [reflexivity|]. split; [|reflexivity].
  intros kwargs k Hin Hun. unfold bind_parameters.
  destruct (forallb (fun k => str_in k parameter_names) (dict_keys kwargs)) eqn:E;
    [|reflexivity].
  rewrite forallb_forall in E. apply E, str_in_In in Hin. contradiction.
Qed.

Lemma snapshot_unpacks_to_arguments_witness :
  bind_parameters [("vhdr_file", VStr "S01.vhdr"); ("config", VNone)] = Raise TypeError.
Proof.
  destruct (snapshot_unpacks_to_arguments default_args) as (_ & _ & H & _).
  apply (H _ "config"); [simpl; auto|].
  vm_compute. intuition discriminate.
Defined.

(** ** Passes, errors and the returned snapshot *)

Section MorePasses.

Context `{C : Collaborators}.

Lemma second_part_config a fr st st' trials evokeds evokeds_df config :
  second_part a fr st = (st', Returns (trials, evokeds, evokeds_df, config)) ->
  config = fr_config fr.
Proof.
  unfold second_part. intros E.
  do 4 (apply bind_returns in E; destruct E as (? & ? & _ & E)).
  apply bind_returns in E; destruct E as (? & [? ?] & _ & E).
  apply bind_returns in E; destruct E as (? & ? & _ & E).
  now injection E as _ _ _ _ <-.
Qed.

Lemma single_pass_config a st st' trials evokeds evokeds_df config :
  bind (first_part a) (fun fr => second_part a fr) st
  = (st', Returns (trials, evokeds, evokeds_df, config)) ->
  config = length (st_heap st).
Proof.
  intros H. apply bind_returns in H. destruct H as (st1 & fr & Hfirst & Hsecond).
  apply second_part_config in Hsecond.
  destruct (first_part_frame _ _ _ _ Hfirst) as [Hcfg _]. congruence.
Qed.

Lemma stored_after_first_part a st st1 fr v :
  first_part a st = (st1, Returns fr) ->
  st_heap (stored (fr_config fr) "bad_channels" v st1)
  = st_heap st ++ [locals (with_bad_channels v a)]
  /\ st_calls (stored (fr_config fr) "bad_channels" v st1) = st_calls st ++ [a].
Proof.
  intros Hfirst.
  destruct (first_part_frame _ _ _ _ Hfirst) as [Hcfg _].
  destruct (heap_after_first_part _ _ _ _ Hfirst) as (Hh & Hc & _).
  unfold stored. cbn [st_heap st_calls]. split; [|exact Hc].
  rewrite Hh, Hcfg.
  replace (length (st_heap st)) with (length (st_heap st) + 0)%nat at 1 by lia.
  rewrite alter_app_r. f_equal.
Qed.

(** X7.  Whatever the arguments and the collaborators do, an
    invocation is over within two passes: a call depth of two is
    always enough, more depth changes nothing, and the function is
    entered once, or twice when "auto" was asked for and channels were
    detected. *)
Theorem at_most_two_passes (depth : nat) (a : args) (st : state) :
  let run := participant_pipeline (S (S depth)) a st in
  run = participant_pipeline 2 a st
  /\ snd run <> Unfinished
  /\ (st_calls (fst run) = st_calls st ++ [a]
      \/ exists detected,
           detected <> [] /\ eq_str (bad_channels a) "auto" = true
           /\ st_calls (fst run)
              = st_calls st ++ [a; with_bad_channels (VList (map VStr detected)) a]).
Proof.
  cbn zeta.
  destruct (eq_str (bad_channels a) "auto") eqn:Hauto.
  - destruct (first_part a st) as [st1 [fr|e|]] eqn:Hfirst.
    + destruct (first_part_frame _ _ _ _ Hfirst) as [_ Hb].
      destruct (fr_auto_channels fr) as [|ch chs] eqn:Hdet.
      * assert (Hrun : forall d, participant_pipeline (S d) a st
                  = second_part a fr (stored (fr_config fr) "bad_channels" (VList []) st1)).
        { intros d. cbn [participant_pipeline]. unfold participant_pipeline_body, bind at 1.
          now rewrite Hfirst, Hb, Hauto, Hdet. }
        rewrite !Hrun.
        destruct (stored_after_first_part a st st1 fr (VList []) Hfirst) as [_ Hc].
        set (st2 := stored (fr_config fr) "bad_channels" (VList []) st1) in *.
        destruct (second_part_world_only a fr st2 st2 eq_refl) as (_ & _ & _ & Hc2 & Hfin).
        split; [reflexivity|]. split; [exact Hfin|]. left. now rewrite Hc2.
      * assert (Hdet' : fr_auto_channels fr <> []) by (rewrite Hdet; discriminate).
        assert (Hrun : forall d, participant_pipeline (S (S d)) a st
                  = bind (first_part (with_bad_channels (VList (map VStr (ch :: chs))) a))
                      (fun fr' => second_part
                         (with_bad_channels (VList (map VStr (ch :: chs))) a) fr')
                      (stored (fr_config fr) "bad_channels" (VList (map VStr (ch :: chs))) st1)).
        { intros d.
          change (participant_pipeline (S (S d)) a)
            with (participant_pipeline_body (participant_pipeline (S d)) a).
          rewrite (restart_step _ a st st1 fr Hauto Hfirst Hdet'). rewrite Hdet.
          cbn [participant_pipeline]. now rewrite body_single_pass. }
        rewrite (Hrun depth), (Hrun 0%nat).
        destruct (stored_after_first_part a st st1 fr (VList (map VStr (ch :: chs))) Hfirst)
          as [_ Hc].
        match goal with |- context [bind ?m ?k ?s] =>
          destruct (single_pass_store
                      (with_bad_channels (VList (map VStr (ch :: chs))) a) s)
            as (_ & Hc2 & Hfin)
        end.
        split; [reflexivity|]. split; [exact Hfin|]. right.
        exists (ch :: chs). split; [discriminate|]. split; [reflexivity|].
        rewrite Hc2, Hc, <- app_assoc. reflexivity.
    + assert (Hrun : forall d, participant_pipeline (S d) a st = (st1, Raises e)).
      { intros d. cbn [participant_pipeline]. unfold participant_pipeline_body, bind at 1.
        now rewrite Hfirst. }
      rewrite !Hrun. cbn.
      destruct (first_part_store a st) as (_ & Hc & _). rewrite Hfirst in Hc.
      split; [reflexivity|]. split; [discriminate|]. now left.
    + destruct (first_part_store a st) as (_ & _ & Hfin). rewrite Hfirst in Hfin.
      now contradiction Hfin.
  - cbn [participant_pipeline]. rewrite !body_single_pass by assumption.
    destruct (single_pass_store a st) as (_ & Hc & Hfin).
    split; [reflexivity|]. split; [exact Hfin|]. now left.
Qed.


(** X9.  When [bad_channels] is not "auto", the snapshot that is
    returned is the snapshot of the arguments as they were given:
    nothing is written into it, neither the list made of a channel
    name nor the converted sampling rate. *)
Theorem explicit_channels_snapshot_untouched (depth : nat) (a : args) (st : state)
    (trials : dataframe) (evokeds : evokeds_t) (evokeds_df : dataframe) (config : nat) :
  eq_str (bad_channels a) "auto" = false ->
  snd (participant_pipeline (S depth) a st) = Returns (trials, evokeds, evokeds_df, config) ->
  st_heap (fst (participant_pipeline (S depth) a st)) !! config = Some (locals a)
  /\ st_heap (fst (participant_pipeline (S depth) a st)) = st_heap st ++ [locals a].
Proof.
  intros Hna. cbn [participant_pipeline]. rewrite body_single_pass by assumption.
  intros Hret.
  destruct (single_pass_store a st) as (Hh & _).
  destruct (bind (first_part a) (fun fr => second_part a fr) st) as [st' o] eqn:Hrun.
  cbn in Hret, Hh |- *. subst o.
  apply single_pass_config in Hrun. subst config.
  split; [|exact Hh].
  rewrite Hh, lookup_app_r by lia. now rewrite Nat.sub_diag.
Qed.

(** X10.  After a restart both snapshots in the store, the one of the
    first pass and the one of the second, hold the arguments with the
    detected channels as [bad_channels]; the snapshot that is
    returned is the one of the second pass. *)
Theorem restart_snapshots (depth : nat) (a : args) (st st1 : state) (fr : frame) :
  eq_str (bad_channels a) "auto" = true ->
  first_part a st = (st1, Returns fr) ->
  fr_auto_channels fr <> [] ->
  let a2 := with_bad_channels (VList (map VStr (fr_auto_channels fr))) a in
  let run := participant_pipeline (S (S depth)) a st in
  st_heap (fst run) = st_heap st ++ [locals a2; locals a2]
  /\ dict_get "bad_channels" (locals a2) = Some (VList (map VStr (fr_auto_channels fr)))
  /\ forall trials evokeds evokeds_df config,
       snd run = Returns (trials, evokeds, evokeds_df, config) ->
       config = S (length (st_heap st)).
Proof.
  intros Hauto Hfirst Hdet a2 run.
  assert (Hrun : run = bind (first_part a2) (fun fr' => second_part a2 fr')
                         (stored (fr_config fr) "bad_channels"
                            (VList (map VStr (fr_auto_channels fr))) st1)).
  { subst run.
    change (participant_pipeline (S (S depth)) a)
      with (participant_pipeline_body (participant_pipeline (S depth)) a).
    rewrite (restart_step _ a st st1 fr Hauto Hfirst Hdet).
    cbn [participant_pipeline]. now rewrite body_single_pass. }
  destruct (stored_after_first_part a st st1 fr
              (VList (map VStr (fr_auto_channels fr))) Hfirst) as [Hh _].
  fold a2 in Hh.
  set (st2 := stored (fr_config fr) "bad_channels"
                (VList (map VStr (fr_auto_channels fr))) st1) in *.
  destruct (single_pass_store a2 st2) as (Hh2 & _).
  rewrite Hrun. split; [|split].
  - rewrite Hh2, Hh, <- app_assoc. reflexivity.
  - reflexivity.
  - intros trials evokeds evokeds_df config Hret.
    destruct (bind (first_part a2) (fun fr' => second_part a2 fr') st2) as [st' o] eqn:E.
    cbn in Hret. subst o. apply single_pass_config in E.
    rewrite E, Hh, length_app. cbn. lia.
Qed.

(** X11.  A [bad_channels] that is neither [None], nor a string, nor
    a list (a number, a tuple, a dict) is a [TypeError]: it is raised
    once the bad channels of the recording have been read, before they
    are set and before anything is interpolated. *)
Theorem bad_channels_of_wrong_type (raw : raw_t) (bad_channels : value) (st : state) :
  is_None bad_channels = false ->
  isinstance_str bad_channels = false ->
  isinstance_list bad_channels = false ->
  interpolate_bad_channels raw bad_channels st
  = bind (call (raw_info_bads raw)) (fun _ => lift (Raise TypeError)) st.
Proof.
  intros Hnone Hstr Hlist. unfold interpolate_bad_channels, ne_str.
  destruct bad_channels; try discriminate; cbn;
    apply bind_ext; intros bads st'; reflexivity.
Qed.

(** X12.  Errors of the triggers: a [triggers] that is neither [None]
    nor a dict is an [AttributeError], and when [int] refuses a value
    of the dict, what it raises is raised, for the first such value;
    both after the annotations have been read. *)
Theorem triggers_errors (raw : raw_t) (st : state)
    (events : events_t) (annotated : dict_of Z) (w : world) :
  events_from_annotations raw "Stimulus" (st_world st) = (w, Ok (events, annotated)) ->
  let st' := {| st_world := w; st_heap := st_heap st; st_calls := st_calls st |} in
  (forall triggers, is_None triggers = false -> isinstance_dict triggers = false ->
     resolve_events raw triggers st = (st', Raises AttributeError))
  /\ (forall before key v after e,
     Forall (fun kv => exists z, builtin_int (snd kv) = Ok z) before ->
     builtin_int v = Raise e ->
     resolve_events raw (VDict (before ++ (key, v) :: after)) st = (st', Raises e)).
Proof.
  intros Hann st'. split.
  - intros triggers Hnone Hdict.
    unfold resolve_events, bind, call. rewrite Hann. cbn.
    destruct triggers; try discriminate; reflexivity.
  - intros before key v after e Hbefore Hv.
    unfold resolve_events, bind, call. rewrite Hann. cbn. unfold lift.
    assert (Hint : forall acc, int_values (before ++ (key, v) :: after) acc = Raise e).
    { induction Hbefore as [|[k0 v0] before [z Hz] _ IH]; intros acc; simpl.
      - now rewrite Hv.
      - simpl in Hz. rewrite Hz. simpl. apply IH. }
    now rewrite Hint.
Qed.

End MorePasses.

(** ** The journal of an invocation *)

Section JournalFacts.

Import Journal.

Context (C : Collaborators).

Local Abbreviation JM := (@M (collaborators C)).

Lemma in_order_bounds lo hi evs : in_order lo hi evs -> lo <= hi.
Proof.
  revert lo. induction evs as [|ev evs IH]; intros lo; simpl; [auto|].
  intros [Hlo Hrest]. apply IH in Hrest. lia.
Qed.

Lemma in_order_weaken lo lo' hi hi' evs :
  lo' <= lo -> hi <= hi' -> in_order lo hi evs -> in_order lo' hi' evs.
Proof.
  revert lo lo'. induction evs as [|ev evs IH]; intros lo lo' Hlo Hhi; simpl; [lia|].
  intros [Hr Hrest]. split; [lia|]. eapply IH; [| exact Hhi | exact Hrest]. lia.
Qed.

Lemma in_order_app lo mid hi evs1 evs2 :
  in_order lo mid evs1 -> in_order mid hi evs2 -> in_order lo hi (evs1 ++ evs2).
Proof.
  revert lo. induction evs1 as [|ev evs1 IH]; intros lo; simpl.
  - intros Hlo H2. eapply in_order_weaken; [exact Hlo | reflexivity | exact H2].
  - intros [Hr H1] H2. split; [exact Hr|]. now apply IH.
Qed.

Lemma in_order_ranks lo hi evs ev :
  in_order lo hi evs -> In ev evs -> lo <= rank ev < hi.
Proof.
  revert lo. induction evs as [|ev' evs IH]; intros lo; simpl; [tauto|].
  intros [Hr Hrest] [->|Hin].
  - apply in_order_bounds in Hrest. lia.
  - specialize (IH _ Hrest Hin). lia.
Qed.

Lemma emits_weaken {A} a lo lo' hi hi' (m : JM A) :
  lo' <= lo -> hi <= hi' -> emits a lo hi m -> emits a lo' hi' m.
Proof.
  intros Hlo Hhi Hm st. destruct (Hm st) as (evs & Hj & Ho & Hf).
  exists evs. split; [exact Hj|]. split; [|exact Hf]. eapply in_order_weaken; eauto.
Qed.

Lemma emits_ret {A} a lo hi (x : A) : lo <= hi -> emits a lo hi (ret x : JM A).
Proof.
  intros Hle st. exists []. cbn. rewrite app_nil_r. repeat split; [exact Hle | constructor].
Qed.

Lemma emits_lift {A} a lo hi (r : result A) : lo <= hi -> emits a lo hi (lift r : JM A).
Proof.
  intros Hle st. exists []. unfold lift. destruct r; cbn; rewrite app_nil_r;
    (repeat split; [exact Hle | constructor]).
Qed.

Lemma emits_call {A} a lo hi ev (c : effect (@world C) A) :
  lo <= rank ev -> rank ev < hi -> fits a ev ->
  emits a lo hi (call (C := collaborators C) (logged ev c)).
Proof.
  intros Hlo Hhi Hfit st. exists [ev]. unfold call, logged, journal.
  destruct (c (fst (st_world st))) as [w' [x|e]]; cbn;
    (split; [reflexivity | split; [split; [exact Hlo | lia] | now constructor]]).
Qed.

Lemma emits_bind {A B} a lo mid hi (m : JM A) (k : A -> JM B) :
  mid <= hi ->
  emits a lo mid m -> (forall x, emits a mid hi (k x)) -> emits a lo hi (bind m k).
Proof.
  intros Hle Hm Hk st. destruct (Hm st) as (evs1 & Hj1 & Ho1 & Hf1). unfold bind.
  destruct (m st) as [st1 [x|e|]]; cbn in *.
  - destruct (Hk x st1) as (evs2 & Hj2 & Ho2 & Hf2).
    exists (evs1 ++ evs2). rewrite Hj2, Hj1, <- app_assoc.
    split; [reflexivity|]. split; [eapply in_order_app; eauto | now apply Forall_app].
  - exists evs1. split; [exact Hj1|]. split; [|exact Hf1].
    eapply in_order_weaken; [reflexivity | exact Hle | exact Ho1].
  - exists evs1. split; [exact Hj1|]. split; [|exact Hf1].
    eapply in_order_weaken; [reflexivity | exact Hle | exact Ho1].
Qed.

Lemma emits_bind_lift {A B} a lo hi (r : result A) (k : A -> JM B) :
  lo <= hi ->
  (forall x, r = Ok x -> emits a lo hi (k x)) -> emits a lo hi (bind (lift r) k).
Proof.
  intros Hle Hk st. unfold bind, lift. destruct r as [x|e].
  - apply (Hk x eq_refl).
  - exists []. cbn. rewrite app_nil_r. repeat split; [exact Hle | constructor].
Qed.

Lemma emits_bind_call {A B} a lo hi ev (c : effect (@world C) A) (k : A -> JM B) :
  lo <= rank ev -> rank ev < hi -> fits a ev ->
  (forall x, emits a (S (rank ev)) hi (k x)) ->
  emits a lo hi (bind (call (C := collaborators C) (logged ev c)) k).
Proof.
  intros Hlo Hhi Hfit Hk.
  apply (emits_bind a lo (S (rank ev)) hi); [lia | | exact Hk].
  apply emits_call; [exact Hlo | lia | exact Hfit].
Qed.

Lemma emits_if {A} a lo hi (b : bool) (m1 m2 : JM A) :
  (b = true -> emits a lo hi m1) -> (b = false -> emits a lo hi m2) ->
  emits a lo hi (if b then m1 else m2).
Proof. destruct b; auto. Qed.

(** The stages. *)

Lemma downsample_emits a raw :
  emits a 1 2 (downsample (C := collaborators C) raw (downsample_sfreq a)).
Proof.
  unfold downsample. apply emits_if; intros Hb; [|apply emits_ret; lia].
  apply negb_true_iff in Hb.
  apply emits_bind_lift; [lia|]. intros sfreq _.
  apply (emits_call a 1 2 (Resample sfreq)); [cbn; lia | cbn; lia | exact Hb].
Qed.

Lemma list_add_channels bads bad_channels new :
  list_add bads (if isinstance_str bad_channels then VList [bad_channels] else bad_channels)
  = Ok new ->
  ne_str bad_channels "auto" = true ->
  exists names, new = bads ++ names /\ explicit_channels bad_channels = Some names.
Proof.
  unfold ne_str. intros Hadd Hne. apply negb_true_iff in Hne.
  destruct bad_channels; try discriminate; cbn in *.
  - injection Hadd as <-. exists [VStr s]. now rewrite Hne.
  - injection Hadd as <-. now exists elems.
Qed.

Lemma interpolate_bad_channels_emits a raw :
  emits a 4 7 (interpolate_bad_channels (C := collaborators C) raw (bad_channels a)).
Proof.
  unfold interpolate_bad_channels. apply emits_if; intros Hb; [|apply emits_ret; lia].
  apply andb_prop in Hb. destruct Hb as [Hnone Hne]. apply negb_true_iff in Hnone.
  assert (Hauto : eq_str (bad_channels a) "auto" = false)
    by (unfold ne_str in Hne; now apply negb_true_iff in Hne).
  apply (emits_bind_call a 4 7 InfoBads); [cbn; lia | cbn; lia | now split|].
  intros bads. apply emits_bind_lift; [cbn; lia|]. intros new Hnew.
  destruct (list_add_channels _ _ _ Hnew Hne) as [names [-> Hnames]].
  apply (emits_bind_call a _ 7 (SetInfoBads (bads ++ names)));
    [cbn; lia | cbn; lia | now exists bads, names |].
  intros _. apply (emits_bind_call a _ 7 InterpolateBads);
    [cbn; lia | cbn; lia | now exists names |].
  intros _. apply emits_ret. cbn. lia.
Qed.

Lemma correct_ocular_emits a raw :
  emits a 8 10 (correct_ocular (C := collaborators C) raw (ocular_correction a)).
Proof.
  unfold correct_ocular. apply emits_if; intros Hb; [|apply emits_ret; lia].
  apply negb_true_iff in Hb.
  apply (emits_bind_call a 8 10 (IsFile (ocular_correction a)));
    [cbn; lia | cbn; lia | now split |].
  intros is_file. destruct is_file.
  - apply (emits_call a _ 10 (CorrectBesa (ocular_correction a)));
      [cbn; lia | cbn; lia | now split].
  - apply (emits_call a _ 10 (CorrectIca (ocular_correction a)));
      [cbn; lia | cbn; lia | now split].
Qed.

Lemma resolve_events_emits a raw :
  emits a 12 13 (resolve_events (C := collaborators C) raw (triggers a)).
Proof.
  unfold resolve_events.
  apply (emits_bind_call a 12 13 (EventsFromAnnotations "Stimulus"));
    [cbn; lia | cbn; lia | reflexivity |].
  intros [events event_id]. apply emits_if; intros _.
  - apply emits_bind_lift; [cbn; lia|]. intros codes _. apply emits_ret. cbn. lia.
  - apply emits_ret. cbn. lia.
Qed.

Lemma extract_epochs_emits a raw events event_id :
  emits a 13 15 (extract_epochs (C := collaborators C) raw events event_id a).
Proof.
  unfold extract_epochs.
  apply (emits_bind_call a 13 15
           (MakeEpochs event_id (epochs_tmin a) (epochs_tmax a) (baseline a)));
    [cbn; lia | cbn; lia | cbn; auto |].
  intros epochs.
  apply (emits_bind_call a _ 15 (Crop (epochs_tmin a) (epochs_tmax a) false));
    [cbn; lia | cbn; lia | cbn; auto |].
  intros _. apply emits_ret. cbn. lia.
Qed.

Lemma fuse_metadata_emits a epochs pid :
  get_participant_id (vhdr_file a) = Ok pid ->
  emits a 15 18 (fuse_metadata (C := collaborators C) epochs pid a).
Proof.
  intros Hpid. unfold fuse_metadata.
  apply (emits_bind_call a 15 18
           (ReadLog (log_file a) (skip_log_rows a) (skip_log_conditions a)));
    [cbn; lia | cbn; lia | cbn; auto |].
  intros metadata.
  apply (emits_bind_call a _ 18 SetMetadata); [cbn; lia | cbn; lia | exact I |].
  intros _.
  apply (emits_call a _ 18 (MetadataInsert 0 "participant_id" pid));
    [cbn; lia | cbn; lia | cbn; auto].
Qed.

Lemma stages_until_detection_emits a config :
  emits a 0 19 (stages_until_detection (C := collaborators C) a config).
Proof.
  unfold stages_until_detection.
  apply emits_bind_lift; [lia|]. intros pid Hpid.
  apply (emits_bind_call a 0 19 (ReadRaw (vhdr_file a))); [cbn; lia | cbn; lia | reflexivity |].
  intros raw.
  apply (emits_bind a _ 2 19); [lia | |].
  { eapply emits_weaken; [| | apply downsample_emits]; cbn; lia. }
  intros _.
  apply (emits_bind_call a 2 19 (AddHeogVeog (heog_channels a) (veog_channels a)));
    [cbn; lia | cbn; lia | cbn; auto |].
  intros raw'.
  apply (emits_bind_call a _ 19 (ApplyMontage (montage a)));
    [cbn; lia | cbn; lia | reflexivity |].
  intros _.
  apply (emits_bind a _ 7 19); [lia | |].
  { eapply emits_weaken; [| | apply interpolate_bad_channels_emits]; cbn; lia. }
  intros bad_channels.
  apply (emits_bind_call a 7 19 (SetEegReference "average"));
    [cbn; lia | cbn; lia | reflexivity |].
  intros _.
  apply (emits_bind a _ 10 19); [lia | |].
  { eapply emits_weaken; [| | apply correct_ocular_emits]; cbn; lia. }
  intros _.
  apply (emits_bind_call a 10 19 (Filter (highpass_freq a) (lowpass_freq a)));
    [cbn; lia | cbn; lia | cbn; auto |].
  intros _.
  apply (emits_bind a _ 12 19); [lia | |].
  { apply emits_if; intros Hb; [|apply emits_ret; cbn; lia].
    apply negb_true_iff in Hb.
    apply (emits_call a _ 12 (SaveClean (clean_dir a) pid)); [cbn; lia | cbn; lia | cbn; auto]. }
  intros _.
  apply (emits_bind a _ 13 19); [lia | apply resolve_events_emits |].
  intros [events event_id].
  apply (emits_bind a _ 15 19); [lia | apply extract_epochs_emits |].
  intros epochs.
  apply (emits_bind a _ 18 19); [lia | now apply fuse_metadata_emits |].
  intros _.
  apply (emits_bind_call a 18 19 (GetBads (reject_peak_to_peak a) (reject_flat a)));
    [cbn; lia | cbn; lia | cbn; auto |].
  intros [bad_ixs auto_channels]. apply emits_ret. cbn. lia.
Qed.

Lemma second_part_emits a fr :
  get_participant_id (vhdr_file a) = Ok (fr_participant_id fr) ->
  emits a 19 25 (second_part (C := collaborators C) a fr).
Proof.
  intros Hpid. unfold second_part.
  apply (emits_bind_call a 19 25 (ComputeSingleTrials (components a)));
    [cbn; lia | cbn; lia | reflexivity |].
  intros trials.
  apply (emits_bind a _ 21 25); [lia | |].
  { apply emits_if; intros Hb; [|apply emits_ret; cbn; lia].
    apply negb_true_iff in Hb.
    apply (emits_call a _ 21 (SaveEpochs (epochs_dir a) (fr_participant_id fr) (to_df a)));
      [cbn; lia | cbn; lia | cbn; auto]. }
  intros _.
  apply (emits_bind a _ 22 25); [lia | |].
  { apply emits_if; intros Hb; [|apply emits_ret; cbn; lia].
    apply negb_true_iff in Hb.
    apply (emits_call a _ 22 (SaveDf (trials_dir a) (fr_participant_id fr) "trials"));
      [cbn; lia | cbn; lia | cbn; auto]. }
  intros _.
  apply (emits_bind a _ 23 25); [lia | |].
  { apply emits_if; intros Hb; [|apply emits_ret; cbn; lia].
    apply negb_true_iff in Hb.
    apply (emits_call a _ 23 (SaveMontage (export_dir a)));
      [cbn; lia | cbn; lia | cbn; auto]. }
  intros _.
  apply (emits_bind_call a 23 25
           (ComputeEvokeds (condition_cols a) (fr_participant_id fr)));
    [cbn; lia | cbn; lia | cbn; auto |].
  intros [evokeds evokeds_df].
  apply (emits_bind a _ 25 25); [lia | |].
  { apply emits_if; intros Hb; [|apply emits_ret; cbn; lia].
    apply negb_true_iff in Hb.
    apply (emits_call a _ 25
             (SaveEvokeds (evokeds_dir a) (fr_participant_id fr) (to_df a)));
      [cbn; lia | cbn; lia | cbn; auto]. }
  intros _. apply emits_ret. lia.
Qed.

Lemma first_part_participant_id {C' : Collaborators} a st st1 fr :
  first_part (C := C') a st = (st1, Returns fr) ->
  get_participant_id (vhdr_file a) = Ok (fr_participant_id fr).
Proof.
  rewrite first_part_unfold. unfold stages_until_detection. intros H.
  apply bind_returns in H. destruct H as (? & pid & Hpid & H).
  assert (Hid : get_participant_id (vhdr_file a) = Ok pid).
  { unfold lift in Hpid. destruct (get_participant_id (vhdr_file a)); congruence. }
  do 10 (apply bind_returns in H; destruct H as (? & ? & _ & H)).
  match type of H with context [let '(_, _) := ?p in _] => destruct p end.
  do 3 (apply bind_returns in H; destruct H as (? & ? & _ & H)).
  match type of H with context [let '(_, _) := ?p in _] => destruct p end.
  injection H as _ <-. exact Hid.
Qed.

Lemma first_part_journal a st :
  exists evs,
    journal (fst (first_part (C := collaborators C) a st)) = journal st ++ evs
    /\ in_order 0 19 evs /\ Forall (fits a) evs.
Proof.
  rewrite first_part_unfold.
  exact (stages_until_detection_emits a (length (st_heap st)) (entered a st)).
Qed.

Lemma single_pass_journal a st :
  exists evs,
    journal (fst (bind (first_part (C := collaborators C) a)
                    (fun fr => second_part a fr) st))
    = journal st ++ evs
    /\ in_order 0 25 evs /\ Forall (fits a) evs.
Proof.
  destruct (first_part_journal a st) as (evs1 & Hj1 & Ho1 & Hf1). unfold bind.
  destruct (first_part a st) as [st1 [fr|e|]] eqn:Hfirst; cbn [fst] in *.
  - destruct (second_part_emits a fr (first_part_participant_id _ _ _ _ Hfirst) st1)
      as (evs2 & Hj2 & Ho2 & Hf2).
    exists (evs1 ++ evs2). rewrite Hj2, Hj1, <- app_assoc.
    split; [reflexivity|]. split; [eapply in_order_app; eauto | now apply Forall_app].
  - exists evs1. split; [exact Hj1|]. split; [|exact Hf1].
    eapply in_order_weaken; [reflexivity | | exact Ho1]. lia.
  - exists evs1. split; [exact Hj1|]. split; [|exact Hf1].
    eapply in_order_weaken; [reflexivity | | exact Ho1]. lia.
Qed.

(** The calls of an invocation: those of its first pass and, after a
    restart, those of the second pass. *)
Lemma journal_of_run (depth : nat) (a : args) (st : @state (collaborators C)) :
  exists evs1 evs2,
    journal (fst (participant_pipeline (C := collaborators C) (S (S depth)) a st))
    = journal st ++ evs1 ++ evs2
    /\ in_order 0 25 evs1 /\ Forall (fits a) evs1
    /\ (evs2 = []
        \/ exists detected,
             detected <> [] /\ eq_str (bad_channels a) "auto" = true
             /\ in_order 0 19 evs1
             /\ in_order 0 25 evs2
             /\ Forall (fits (with_bad_channels (VList (map VStr detected)) a)) evs2).
Proof.
  destruct (eq_str (bad_channels a) "auto") eqn:Hauto.
  - destruct (first_part_journal a st) as (evs1 & Hj1 & Ho1 & Hf1).
    destruct (first_part a st) as [st1 [fr|e|]] eqn:Hfirst; cbn [fst] in Hj1.
    + destruct (first_part_frame _ _ _ _ Hfirst) as [_ Hb].
      destruct (fr_auto_channels fr) as [|ch chs] eqn:Hdet.
      * assert (Hrun : participant_pipeline (C := collaborators C) (S (S depth)) a st
                  = second_part a fr (stored (fr_config fr) "bad_channels" (VList []) st1)).
        { cbn [participant_pipeline]. unfold participant_pipeline_body, bind at 1.
          now rewrite Hfirst, Hb, Hauto, Hdet. }
        rewrite Hrun.
        destruct (second_part_emits a fr (first_part_participant_id _ _ _ _ Hfirst)
                    (stored (fr_config fr) "bad_channels" (VList []) st1))
          as (evs2 & Hj2 & Ho2 & Hf2).
        exists (evs1 ++ evs2), []. rewrite app_nil_r, Hj2.
        change (journal (stored (fr_config fr) "bad_channels" (VList []) st1))
          with (journal st1).
        rewrite Hj1, <- app_assoc.
        split; [reflexivity|]. split; [eapply in_order_app; eauto|].
        split; [now apply Forall_app | now left].
      * assert (Hdet' : fr_auto_channels fr <> []) by (rewrite Hdet; discriminate).
        assert (Hrun : participant_pipeline (C := collaborators C) (S (S depth)) a st
                  = bind (first_part (with_bad_channels (VList (map VStr (ch :: chs))) a))
                      (fun fr' => second_part
                         (with_bad_channels (VList (map VStr (ch :: chs))) a) fr')
                      (stored (fr_config fr) "bad_channels" (VList (map VStr (ch :: chs))) st1)).
        { change (participant_pipeline (C := collaborators C) (S (S depth)) a)
            with (participant_pipeline_body (participant_pipeline (C := collaborators C)
                                               (S depth)) a).
          rewrite (restart_step _ a st st1 fr Hauto Hfirst Hdet'). rewrite Hdet.
          cbn [participant_pipeline]. now rewrite body_single_pass. }
        rewrite Hrun.
        destruct (single_pass_journal (with_bad_channels (VList (map VStr (ch :: chs))) a)
                    (stored (fr_config fr) "bad_channels" (VList (map VStr (ch :: chs))) st1))
          as (evs2 & Hj2 & Ho2 & Hf2).
        exists evs1, evs2. rewrite Hj2.
        change (journal (stored (fr_config fr) "bad_channels"
                           (VList (map VStr (ch :: chs))) st1))
          with (journal st1).
        rewrite Hj1, <- app_assoc.
        split; [reflexivity|].
        split; [eapply in_order_weaken; [reflexivity | | exact Ho1]; lia|].
        split; [exact Hf1|]. right. exists (ch :: chs).
        split; [discriminate|]. auto.
    + assert (Hrun : participant_pipeline (C := collaborators C) (S (S depth)) a st
                = (st1, Raises e)).
      { cbn [participant_pipeline]. unfold participant_pipeline_body, bind at 1.
        now rewrite Hfirst. }
      rewrite Hrun. exists evs1, []. rewrite app_nil_r.
      split; [exact Hj1|].
      split; [eapply in_order_weaken; [reflexivity | | exact Ho1]; lia|].
      split; [exact Hf1 | now left].
    + destruct (first_part_store a st) as (_ & _ & Hfin). rewrite Hfirst in Hfin.
      now contradiction Hfin.
  - cbn [participant_pipeline]. rewrite body_single_pass by assumption.
    destruct (single_pass_journal a st) as (evs & Hj & Ho & Hf).
    exists evs, []. rewrite app_nil_r. auto.
Qed.

Lemma in_order_sorted lo hi evs i j ev ev' :
  in_order lo hi evs -> i < j -> evs !! i = Some ev -> evs !! j = Some ev' ->
  rank ev < rank ev'.
Proof.
  revert lo i j. induction evs as [|e evs IH]; intros lo i j; [discriminate 3|].
  simpl. intros [Hlo Hrest] Hij Hi Hj.
  destruct j as [|j]; [lia|]. destruct i as [|i]; simpl in Hi, Hj.
  - injection Hi as ->.
    apply list_elem_of_lookup_2, list_elem_of_In in Hj.
    pose proof (in_order_ranks _ _ _ _ Hrest Hj). lia.
  - apply (IH (S (rank e)) i j); [exact Hrest | lia | exact Hi | exact Hj].
Qed.

(** X13.  Within a pass the collaborators are called in the order of
    the stages in the text, each at most once: reading, resampling,
    ocular channels, montage, bad channels, reference, ocular
    correction, filter, saving the cleaned data, events, epochs, crop,
    log, metadata, detection, single trials, savings, evokeds.  A pass
    that ends in a restart stops after the detection: it computes and
    saves neither trials nor evokeds. *)
Theorem calls_follow_the_stages (depth : nat) (a : args) (st : @state (collaborators C)) :
  exists evs1 evs2,
    journal (fst (participant_pipeline (C := collaborators C) (S (S depth)) a st))
    = journal st ++ evs1 ++ evs2
    /\ (forall i j ev ev', i < j -> evs1 !! i = Some ev -> evs1 !! j = Some ev' ->
          rank ev < rank ev')
    /\ (forall i j ev ev', i < j -> evs2 !! i = Some ev -> evs2 !! j = Some ev' ->
          rank ev < rank ev')
    /\ (evs2 <> [] ->
        eq_str (bad_channels a) "auto" = true
        /\ forall ev, In ev evs1 -> rank ev <= rank (GetBads VNone VNone)).
Proof.
  destruct (journal_of_run depth a st) as (evs1 & evs2 & Hj & Ho1 & _ & H2).
  exists evs1, evs2. split; [exact Hj|].
  split; [intros i j ev ev'; now apply (in_order_sorted 0 25)|].
  destruct H2 as [->|(detected & _ & Hauto & Ho1' & Ho2 & _)].
  - split; [intros i j ev ev' _ Hi; discriminate Hi | intros Hne; now contradiction Hne].
  - split; [intros i j ev ev'; now apply (in_order_sorted 0 25)|].
    intros _. split; [exact Hauto|].
    intros ev Hin. pose proof (in_order_ranks _ _ _ _ Ho1' Hin). cbn. lia.
Qed.

Lemma run_events_fit (depth : nat) (a : args) (st : @state (collaborators C)) :
  exists evs,
    journal (fst (participant_pipeline (C := collaborators C) (S (S depth)) a st))
    = journal st ++ evs
    /\ forall ev, In ev evs ->
         fits a ev
         \/ exists detected, fits (with_bad_channels (VList (map VStr detected)) a) ev.
Proof.
  destruct (journal_of_run depth a st) as (evs1 & evs2 & Hj & _ & Hf1 & H2).
  exists (evs1 ++ evs2). split; [exact Hj|].
  intros ev Hin. apply in_app_or in Hin. destruct Hin as [Hin|Hin].
  - left. rewrite Forall_forall in Hf1. apply Hf1. now apply list_elem_of_In.
  - destruct H2 as [->|(detected & _ & _ & _ & _ & Hf2)]; [destruct Hin|].
    right. exists detected. rewrite Forall_forall in Hf2. apply Hf2.
    now apply list_elem_of_In.
Qed.

(** X14.  Nothing is saved that was not asked for: the cleaned data,
    the epochs, the trials, the channel locations and the evokeds are
    saved only when their directory is given, then into that
    directory, and [to_df] is handed on as it was given. *)
Theorem saved_only_where_asked (depth : nat) (a : args) (st : @state (collaborators C)) :
  exists evs,
    journal (fst (participant_pipeline (C := collaborators C) (S (S depth)) a st))
    = journal st ++ evs
    /\ forall ev, In ev evs ->
         match ev with
         | SaveClean dir _ => dir = clean_dir a /\ is_None (clean_dir a) = false
         | SaveEpochs dir _ to =>
             dir = epochs_dir a /\ is_None (epochs_dir a) = false /\ to = to_df a
         | SaveDf dir _ suffix =>
             dir = trials_dir a /\ is_None (trials_dir a) = false /\ suffix = "trials"
         | SaveMontage dir => dir = export_dir a /\ is_None (export_dir a) = false
         | SaveEvokeds dir _ to =>
             dir = evokeds_dir a /\ is_None (evokeds_dir a) = false /\ to = to_df a
         | _ => True
         end.
Proof.
  destruct (run_events_fit depth a st) as (evs & Hj & Hfit).
  exists evs. split; [exact Hj|].
  intros ev Hin.
  destruct (Hfit ev Hin) as [H|[detected H]]; destruct ev; try exact I; cbn in H;
    intuition (subst; auto).
Qed.

(** X15.  One identifier for the participant: what is given to every
    saver, to the computation of the evokeds, and inserted as the first
    column "participant_id" of the metadata is the identifier derived
    from [vhdr_file]. *)
Theorem one_participant_id (depth : nat) (a : args) (st : @state (collaborators C)) :
  exists evs,
    journal (fst (participant_pipeline (C := collaborators C) (S (S depth)) a st))
    = journal st ++ evs
    /\ forall ev, In ev evs ->
         match ev with
         | SaveClean _ pid | SaveEpochs _ pid _ | SaveDf _ pid _
         | ComputeEvokeds _ pid | SaveEvokeds _ pid _ =>
             get_participant_id (vhdr_file a) = Ok pid
         | MetadataInsert loc column pid =>
             loc = 0%Z /\ column = "participant_id"
             /\ get_participant_id (vhdr_file a) = Ok pid
         | _ => True
         end.
Proof.
  destruct (run_events_fit depth a st) as (evs & Hj & Hfit).
  exists evs. split; [exact Hj|].
  intros ev Hin.
  destruct (Hfit ev Hin) as [H|[detected H]]; destruct ev; try exact I; cbn in H; tauto.
Qed.

(** X16.  Epochs are cut and cropped with the bounds that were given:
    [Epochs] gets [epochs_tmin], [epochs_tmax] and [baseline], and
    every crop is the crop to the same bounds without the sample at
    [epochs_tmax]. *)
Theorem epochs_cropped_without_tmax (depth : nat) (a : args)
    (st : @state (collaborators C)) :
  exists evs,
    journal (fst (participant_pipeline (C := collaborators C) (S (S depth)) a st))
    = journal st ++ evs
    /\ forall ev, In ev evs ->
         match ev with
         | MakeEpochs _ tmin tmax bl =>
             tmin = epochs_tmin a /\ tmax = epochs_tmax a /\ bl = baseline a
         | Crop tmin tmax include_tmax =>
             tmin = epochs_tmin a /\ tmax = epochs_tmax a /\ include_tmax = false
         | _ => True
         end.
Proof.
  destruct (run_events_fit depth a st) as (evs & Hj & Hfit).
  exists evs. split; [exact Hj|].
  intros ev Hin.
  destruct (Hfit ev Hin) as [H|[detected H]]; destruct ev; try exact I; exact H.
Qed.


End JournalFacts.

(** ** The savers *)

Section SaverFacts.

Import Io.

Context `{P : Persistence}.

Lemma all_events_ret {A} Q (a : A) : all_events Q (io_ret a).
Proof. intros s. exists []. unfold adds. cbn. now rewrite app_nil_r. Qed.

Lemma all_events_lib {A} Q (c : effect fs A) : all_events Q (lib c).
Proof.
  intros s. exists []. unfold adds, lib. destruct (c (fst s)) as [w r]. cbn.
  now rewrite app_nil_r.
Qed.

Lemma all_events_act (Q : file_event -> Prop) ev (c : effect fs unit) :
  Q ev -> all_events Q (act ev c).
Proof.
  intros Hev s. exists [ev]. unfold adds, act. destruct (c (fst s)) as [w r]. cbn.
  split; [reflexivity | now constructor].
Qed.

Lemma all_events_bind {A B} Q (m : IO A) (k : A -> IO B) :
  all_events Q m -> (forall a, all_events Q (k a)) -> all_events Q (io_bind m k).
Proof.
  intros Hm Hk s. destruct (Hm s) as (evs1 & H1 & Hq1). unfold adds, io_bind in *.
  destruct (m s) as [s1 [a|e]]; cbn in *.
  - destruct (Hk a s1) as (evs2 & H2 & Hq2). unfold adds in H2.
    exists (evs1 ++ evs2). rewrite H2, H1, <- app_assoc.
    split; [reflexivity | now apply Forall_app].
  - now exists evs1.
Qed.

Lemma all_events_if {A} Q (b : bool) (m1 m2 : IO A) :
  (b = true -> all_events Q m1) -> (b = false -> all_events Q m2) ->
  all_events Q (if b then m1 else m2).
Proof. destruct b; auto. Qed.

Lemma all_events_weaken {A} (Q Q' : file_event -> Prop) (m : IO A) :
  (forall ev, Q ev -> Q' ev) -> all_events Q m -> all_events Q' m.
Proof.
  intros Himp Hm s. destruct (Hm s) as (evs & Hadd & Hq). exists evs.
  split; [exact Hadd|]. eapply Forall_impl; eauto.
Qed.

(** A computation that first makes sure of the directory. *)
Lemma makedirs_first {A} dir (k : unit -> IO A) s evs :
  adds (io_bind (act (Makedirs dir) (makedirs dir)) k) s evs ->
  (forall u, all_events (fun _ => True) (k u)) ->
  exists rest, evs = Makedirs dir :: rest.
Proof.
  unfold adds, io_bind, act. intros Hadd Hk.
  destruct (makedirs dir (fst s)) as [w [[]|e]]; cbn in Hadd.
  - destruct (Hk tt (w, snd s ++ [Makedirs dir])) as (evs2 & H2 & _).
    unfold adds in H2. cbn in H2. rewrite H2, <- app_assoc in Hadd.
    apply app_inv_head in Hadd. subst evs. now exists evs2.
  - apply app_inv_head in Hadd. subst evs. now exists [].
Qed.

Ltac solve_all_events :=
  repeat first
    [ apply all_events_ret | apply all_events_lib
    | apply all_events_bind; [|intros ?]
    | apply all_events_if; intros ?
    | apply all_events_act ].

(** What each saver records. *)
Lemma save_clean_events raw dir pid :
  all_events (fun ev => ev = Makedirs dir
                        \/ ev = RawSave (file_name dir pid "cleaned_eeg" ".fif"))
    (save_clean raw dir pid).
Proof. unfold save_clean. solve_all_events; auto. Qed.

Lemma save_df_events df dir pid suffix :
  all_events (fun ev => ev = Makedirs dir \/ ev = ToCsv (file_name dir pid suffix ".csv"))
    (save_df df dir pid suffix).
Proof.
  unfold save_df. solve_all_events; auto.
  right. unfold file_name. now destruct (String.eqb_spec suffix "") as [->|].
Qed.

Lemma save_epochs_events epochs dir pid to_df :
  all_events (fun ev => ev = Makedirs dir
                        \/ (ev = ToCsv (file_name dir pid "epo" ".csv")
                            /\ is_True to_df || eq_str to_df "both" = true)
                        \/ (ev = EpochsSave (file_name dir pid "epo" ".fif")
                            /\ is_False to_df || eq_str to_df "both" = true))
    (save_epochs epochs dir pid to_df).
Proof.
  unfold save_epochs. solve_all_events; auto.
Qed.

Lemma save_evokeds_events evokeds df dir pid to_df :
  all_events (fun ev => ev = Makedirs dir
                        \/ (ev = ToCsv (file_name dir pid "ave" ".csv")
                            /\ is_True to_df || eq_str to_df "both" = true)
                        \/ (ev = WriteEvokeds (file_name dir pid "ave" ".fif")
                            /\ is_False to_df || eq_str to_df "both" = true))
    (save_evokeds evokeds df dir pid to_df).
Proof.
  unfold save_evokeds. solve_all_events; auto.
Qed.

Lemma save_montage_events epochs dir :
  all_events (fun ev => ev = Makedirs dir
                        \/ ev = ToCsv (dir ++ "/channel_locations.csv")%string)
    (save_montage epochs dir).
Proof.
  unfold save_montage. solve_all_events; auto.
Qed.

Lemma save_config_events config dir :
  all_events (fun ev => ev = Makedirs dir \/ ev = JsonDump (dir ++ "/config.json")%string)
    (save_config config dir).
Proof. unfold save_config. solve_all_events; auto. Qed.

Lemma save_report_events raw ica clean events event_id epochs evokeds dir pid :
  all_events (fun ev => ev = Makedirs dir
                        \/ ev = ReportSave (dir ++ "/" ++ pid ++ "_report.html")%string)
    (save_report raw ica clean events event_id epochs evokeds dir pid).
Proof. unfold save_report. solve_all_events; auto. destruct ica; solve_all_events. Qed.

(** Where the savers write. *)

Lemma adds_unique {A} (m : IO A) s evs evs' : adds m s evs -> adds m s evs' -> evs = evs'.
Proof. unfold adds. intros H H'. rewrite H in H'. now apply app_inv_head in H'. Qed.

Lemma keeps_to_from_events {A} dir (Q : file_event -> Prop) (m : IO A) :
  all_events Q m ->
  (forall ev fname, Q ev -> target ev = Some fname ->
     exists name, fname = (dir ++ "/" ++ name)%string) ->
  (forall s evs, adds m s evs -> evs = [] \/ exists rest, evs = Makedirs dir :: rest) ->
  keeps_to dir m.
Proof.
  intros Hall Hq Hstart s. destruct (Hall s) as (evs & Hadd & Hforall).
  exists evs. split; [exact Hadd|]. split; [now apply (Hstart s)|].
  intros fname (ev & Hin & Htarget). rewrite Forall_forall in Hforall.
  apply (Hq ev); [|exact Htarget]. apply Hforall. now apply list_elem_of_In.
Qed.

Lemma keeps_to_after_makedirs {A} dir (Q : file_event -> Prop) (k : unit -> IO A) :
  all_events Q (io_bind (act (Makedirs dir) (makedirs dir)) k) ->
  (forall u, all_events (fun _ => True) (k u)) ->
  (forall ev fname, Q ev -> target ev = Some fname ->
     exists name, fname = (dir ++ "/" ++ name)%string) ->
  keeps_to dir (io_bind (act (Makedirs dir) (makedirs dir)) k).
Proof.
  intros Hall Hk Hq. apply (keeps_to_from_events dir Q); [exact Hall | exact Hq|].
  intros s evs Hadd. right. now apply (makedirs_first dir k s).
Qed.

Lemma lib_bind_adds {A B} (c : effect fs A) (k : A -> IO B) s evs :
  adds (io_bind (lib c) k) s evs ->
  evs = [] \/ exists a w, adds (k a) (w, snd s) evs.
Proof.
  unfold adds, io_bind, lib. destruct (c (fst s)) as [w [a|e]]; cbn.
  - intros H. right. now exists a, w.
  - intros H. left. rewrite <- (app_nil_r (snd s)) in H at 1.
    now apply app_inv_head in H.
Qed.

Ltac in_directory :=
  intros ev fname Hq Htarget; cbn beta in Hq;
  repeat match goal with
         | H : _ \/ _ |- _ => destruct H
         | H : _ /\ _ |- _ => destruct H
         end; subst; cbn in Htarget; try discriminate Htarget;
  injection Htarget as <-; unfold file_name; eexists; reflexivity.

(** X18.  Every saver keeps to its output directory: it makes sure of
    the directory before it writes, and every file it writes lies in
    that directory, whatever the libraries and the file system do and
    wherever it fails. *)
Theorem savers_keep_to_their_directory (dir : string) :
  (forall raw pid, keeps_to dir (save_clean raw dir pid))
  /\ (forall df pid suffix, keeps_to dir (save_df df dir pid suffix))
  /\ (forall epochs pid to_df, keeps_to dir (save_epochs epochs dir pid to_df))
  /\ (forall evokeds df pid to_df, keeps_to dir (save_evokeds evokeds df dir pid to_df))
  /\ (forall epochs, keeps_to dir (save_montage epochs dir))
  /\ (forall config, keeps_to dir (save_config config dir))
  /\ (forall raw ica clean events event_id epochs evokeds pid,
        keeps_to dir (save_report raw ica clean events event_id epochs evokeds dir pid)).
Proof.
  repeat split.
  - intros raw pid. eapply keeps_to_after_makedirs;
      [apply save_clean_events | intros; solve_all_events; exact I | in_directory].
  - intros df pid suffix. eapply keeps_to_after_makedirs;
      [apply save_df_events | intros; solve_all_events; exact I | in_directory].
  - intros epochs pid to_df. eapply keeps_to_after_makedirs;
      [apply save_epochs_events
      | intros; unfold save_df; solve_all_events; exact I | in_directory].
  - intros evokeds df pid to_df. eapply keeps_to_after_makedirs;
      [apply save_evokeds_events
      | intros; unfold save_df; solve_all_events; exact I | in_directory].
  - intros epochs. eapply keeps_to_after_makedirs;
      [apply save_montage_events
      | intros; unfold save_df; solve_all_events; exact I | in_directory].
  - intros config. eapply keeps_to_after_makedirs;
      [apply save_config_events | intros; solve_all_events; exact I | in_directory].
  - intros raw ica clean events event_id epochs evokeds pid.
    eapply keeps_to_from_events; [apply save_report_events | in_directory |].
    intros s evs Hadd. unfold save_report in Hadd.
    apply lib_bind_adds in Hadd. destruct Hadd as [?|(report & w1 & Hadd)]; [now left|].
    apply lib_bind_adds in Hadd. destruct Hadd as [?|(? & w2 & Hadd)]; [now left|].
    assert (Hica : evs = [] \/ exists w,
      adds (io_bind (lib (report_add_raw report clean "Cleaned data"))
              (fun _ => io_bind (lib (raw_info_sfreq clean))
              (fun sfreq => io_bind (lib (report_add_events report events "Event triggers"
                                            event_id sfreq))
              (fun _ => io_bind (lib (report_add_epochs report epochs "Epochs"))
              (fun _ => io_bind (lib (report_add_evokeds report evokeds))
              (fun _ => io_bind (act (Makedirs dir) (makedirs dir))
              (fun _ => act (ReportSave (dir ++ "/" ++ pid ++ "_report.html")%string)
                          (report_save report
                             (dir ++ "/" ++ pid ++ "_report.html")%string))))))))
        (w, snd s) evs).
    { destruct ica as [ica|].
      - apply lib_bind_adds in Hadd. destruct Hadd as [?|(? & w3 & Hadd)]; [now left|].
        right. now exists w3.
      - right. now exists w2. }
    destruct Hica as [?|[w3 Hadd']]; [now left|].
    do 5 (apply lib_bind_adds in Hadd';
          destruct Hadd' as [?|(? & ? & Hadd')]; [now left|]; cbn [snd] in Hadd').
    right. eapply makedirs_first; [exact Hadd'|].
    intros; solve_all_events; exact I.
Qed.

(** Which formats are written. *)

Lemma is_True_spec v : is_True v = true <-> v = VBool true.
Proof. destruct v as [| [|] | | | | | |]; cbn; split; congruence. Qed.

Lemma is_False_spec v : is_False v = true <-> v = VBool false.
Proof. destruct v as [| [|] | | | | | |]; cbn; split; congruence. Qed.

Lemma eq_str_spec v s : eq_str v s = true <-> v = VStr s.
Proof.
  destruct v; cbn; try (split; congruence).
  rewrite String.eqb_eq. split; congruence.
Qed.

Lemma format_chosen (yes : value -> bool) (v to_df : value) :
  (forall x, yes x = true <-> x = v) ->
  yes to_df || eq_str to_df "both" = true -> to_df = v \/ to_df = VStr "both".
Proof.
  intros Hyes H. apply orb_prop in H. destruct H as [H|H].
  - left. now apply Hyes.
  - right. now apply eq_str_spec.
Qed.

Lemma io_bind_ok {A B} (m : IO A) (k : A -> IO B) s s' b :
  io_bind m k s = (s', Ok b) -> exists s1 a, m s = (s1, Ok a) /\ k a s1 = (s', Ok b).
Proof.
  unfold io_bind. destruct (m s) as [s1 [a|e]]; [|discriminate].
  intros H. now exists s1, a.
Qed.

Lemma lib_ok {A} (c : effect fs A) s s' a : lib c s = (s', Ok a) -> snd s' = snd s.
Proof. unfold lib. destruct (c (fst s)) as [w r]. now intros [= <- _]. Qed.

Lemma act_ok ev (c : effect fs unit) s s' u :
  act ev c s = (s', Ok u) -> snd s' = snd s ++ [ev].
Proof. unfold act. destruct (c (fst s)) as [w r]. now intros [= <- _]. Qed.

Lemma save_df_ok df dir pid suffix s s' u :
  save_df df dir pid suffix s = (s', Ok u) ->
  snd s' = snd s ++ [Makedirs dir; ToCsv (file_name dir pid suffix ".csv")].
Proof.
  unfold save_df. intros H.
  apply io_bind_ok in H. destruct H as (s1 & [] & H1 & H).
  apply act_ok in H1. apply act_ok in H. rewrite H, H1, <- app_assoc.
  unfold file_name. now destruct (String.eqb_spec suffix "") as [->|].
Qed.

Lemma save_epochs_ok epochs dir pid to_df s s' u :
  save_epochs epochs dir pid to_df s = (s', Ok u) ->
  snd s' = snd s ++ formats_written dir pid "epo" EpochsSave to_df.
Proof.
  unfold save_epochs, formats_written. intros H.
  apply io_bind_ok in H. destruct H as (s1 & [] & H1 & H). apply act_ok in H1.
  apply io_bind_ok in H. destruct H as (s2 & [] & H2 & H).
  assert (Hs2 : snd s2 = snd s1 ++
            (if is_True to_df || eq_str to_df "both"
             then [Makedirs dir; ToCsv (file_name dir pid "epo" ".csv")] else [])).
  { destruct (is_True to_df || eq_str to_df "both").
    - do 9 (apply io_bind_ok in H2; destruct H2 as (? & ? & Hl & H2);
            apply lib_ok in Hl; rewrite <- Hl; clear Hl).
      now apply save_df_ok in H2.
    - injection H2 as <-. now rewrite app_nil_r. }
  assert (Hs' : snd s' = snd s2 ++
            (if is_False to_df || eq_str to_df "both"
             then [EpochsSave (file_name dir pid "epo" ".fif")] else [])).
  { destruct (is_False to_df || eq_str to_df "both").
    - now apply act_ok in H.
    - injection H as <-. now rewrite app_nil_r. }
  rewrite Hs', Hs2, H1, <- !app_assoc. reflexivity.
Qed.

Lemma save_evokeds_ok evokeds df dir pid to_df s s' u :
  save_evokeds evokeds df dir pid to_df s = (s', Ok u) ->
  snd s' = snd s ++ formats_written dir pid "ave" WriteEvokeds to_df.
Proof.
  unfold save_evokeds, formats_written. intros H.
  apply io_bind_ok in H. destruct H as (s1 & [] & H1 & H). apply act_ok in H1.
  apply io_bind_ok in H. destruct H as (s2 & [] & H2 & H).
  assert (Hs2 : snd s2 = snd s1 ++
            (if is_True to_df || eq_str to_df "both"
             then [Makedirs dir; ToCsv (file_name dir pid "ave" ".csv")] else [])).
  { destruct (is_True to_df || eq_str to_df "both").
    - now apply save_df_ok in H2.
    - injection H2 as <-. now rewrite app_nil_r. }
  assert (Hs' : snd s' = snd s2 ++
            (if is_False to_df || eq_str to_df "both"
             then [WriteEvokeds (file_name dir pid "ave" ".fif")] else [])).
  { destruct (is_False to_df || eq_str to_df "both").
    - now apply act_ok in H.
    - injection H as <-. now rewrite app_nil_r. }
  rewrite Hs', Hs2, H1, <- !app_assoc. reflexivity.
Qed.

Lemma formats_from_events dir pid suffix (fif : string -> file_event) to_df evs :
  (forall f, target (fif f) = Some f) ->
  Forall (fun ev => ev = Makedirs dir
                    \/ (ev = ToCsv (file_name dir pid suffix ".csv")
                        /\ is_True to_df || eq_str to_df "both" = true)
                    \/ (ev = fif (file_name dir pid suffix ".fif")
                        /\ is_False to_df || eq_str to_df "both" = true)) evs ->
  forall fname, writes evs fname ->
    (fname = file_name dir pid suffix ".csv"
     /\ (to_df = VBool true \/ to_df = VStr "both"))
    \/ (fname = file_name dir pid suffix ".fif"
        /\ (to_df = VBool false \/ to_df = VStr "both")).
Proof.
  intros Hfif Hall fname (ev & Hin & Htarget). rewrite Forall_forall in Hall.
  apply list_elem_of_In, Hall in Hin. destruct Hin as [->|[[-> Hc]|[-> Hc]]].
  - discriminate Htarget.
  - injection Htarget as <-. left. split; [reflexivity|].
    exact (format_chosen is_True _ _ is_True_spec Hc).
  - rewrite Hfif in Htarget. injection Htarget as <-. right. split; [reflexivity|].
    exact (format_chosen is_False _ _ is_False_spec Hc).
Qed.

(** X19.  [to_df] selects what [save_epochs] and [save_evokeds] write:
    the table ([.csv]) only for [True] and "both", the MNE file
    ([.fif]) only for [False] and "both"; for any other value (a
    number, [None], another string) no file is written at all; and a
    run that returns has written, in this order, the table and the MNE
    file that were asked for. *)
Theorem to_df_selects_the_formats (dir pid : string) (to_df : value) :
  (forall epochs s evs,
     adds (save_epochs epochs dir pid to_df) s evs ->
     (forall fname, writes evs fname ->
        (fname = file_name dir pid "epo" ".csv"
         /\ (to_df = VBool true \/ to_df = VStr "both"))
        \/ (fname = file_name dir pid "epo" ".fif"
            /\ (to_df = VBool false \/ to_df = VStr "both")))
     /\ (snd (save_epochs epochs dir pid to_df s) = Ok tt ->
         evs = formats_written dir pid "epo" EpochsSave to_df))
  /\ (forall evokeds df s evs,
     adds (save_evokeds evokeds df dir pid to_df) s evs ->
     (forall fname, writes evs fname ->
        (fname = file_name dir pid "ave" ".csv"
         /\ (to_df = VBool true \/ to_df = VStr "both"))
        \/ (fname = file_name dir pid "ave" ".fif"
            /\ (to_df = VBool false \/ to_df = VStr "both")))
     /\ (snd (save_evokeds evokeds df dir pid to_df s) = Ok tt ->
         evs = formats_written dir pid "ave" WriteEvokeds to_df))
  /\ (to_df <> VBool true -> to_df <> VBool false -> to_df <> VStr "both" ->
      (forall epochs s evs fname,
         adds (save_epochs epochs dir pid to_df) s evs -> ~ writes evs fname)
      /\ (forall evokeds df s evs fname,
         adds (save_evokeds evokeds df dir pid to_df) s evs -> ~ writes evs fname)).
Proof.
  assert (Hepochs : forall epochs s evs,
    adds (save_epochs epochs dir pid to_df) s evs ->
    forall fname, writes evs fname ->
      (fname = file_name dir pid "epo" ".csv"
       /\ (to_df = VBool true \/ to_df = VStr "both"))
      \/ (fname = file_name dir pid "epo" ".fif"
          /\ (to_df = VBool false \/ to_df = VStr "both"))).
  { intros epochs s evs Hadd.
    destruct (save_epochs_events epochs dir pid to_df s) as (evs' & Hadd' & Hall).
    rewrite (adds_unique _ _ _ _ Hadd Hadd').
    now apply (formats_from_events dir pid "epo" EpochsSave). }
  assert (Hevokeds : forall evokeds df s evs,
    adds (save_evokeds evokeds df dir pid to_df) s evs ->
    forall fname, writes evs fname ->
      (fname = file_name dir pid "ave" ".csv"
       /\ (to_df = VBool true \/ to_df = VStr "both"))
      \/ (fname = file_name dir pid "ave" ".fif"
          /\ (to_df = VBool false \/ to_df = VStr "both"))).
  { intros evokeds df s evs Hadd.
    destruct (save_evokeds_events evokeds df dir pid to_df s) as (evs' & Hadd' & Hall).
    rewrite (adds_unique _ _ _ _ Hadd Hadd').
    now apply (formats_from_events dir pid "ave" WriteEvokeds). }
  split; [|split].
  - intros epochs s evs Hadd. split; [now apply (Hepochs epochs s)|].
    intros Hok. destruct (save_epochs epochs dir pid to_df s) as [s' r] eqn:Hrun.
    cbn in Hok. subst r. unfold adds in Hadd. rewrite Hrun in Hadd. cbn in Hadd.
    apply save_epochs_ok in Hrun. rewrite Hrun in Hadd. now apply app_inv_head in Hadd.
  - intros evokeds df s evs Hadd. split; [now apply (Hevokeds evokeds df s)|].
    intros Hok. destruct (save_evokeds evokeds df dir pid to_df s) as [s' r] eqn:Hrun.
    cbn in Hok. subst r. unfold adds in Hadd. rewrite Hrun in Hadd. cbn in Hadd.
    apply save_evokeds_ok in Hrun. rewrite Hrun in Hadd. now apply app_inv_head in Hadd.
  - intros Ht Hf Hb. split.
    + intros epochs s evs fname Hadd Hw.
      destruct (Hepochs epochs s evs Hadd fname Hw) as [[_ [?|?]]|[_ [?|?]]]; contradiction.
    + intros evokeds df s evs fname Hadd Hw.
      destruct (Hevokeds evokeds df s evs Hadd fname Hw) as [[_ [?|?]]|[_ [?|?]]];
        contradiction.
Qed.

(** Files of different participants. *)

Lemma append_length (a b : string) :
  String.length (a ++ b)%string = String.length a + String.length b.
Proof. induction a as [|x a IH]; simpl; [reflexivity | now rewrite IH]. Qed.

Lemma append_inv_head (a b c : string) : (a ++ b = a ++ c)%string -> b = c.
Proof. induction a as [|x a IH]; simpl; [auto|]. intros [= H]. auto. Qed.

Lemma append_inv_tail (a b c d : string) :
  (a ++ c = b ++ d)%string -> String.length c = String.length d -> a = b /\ c = d.
Proof.
  revert b. induction a as [|x a IH]; intros [|y b]; simpl; intros H Hlen.
  - auto.
  - apply (f_equal String.length) in H. simpl in H. rewrite append_length in H. lia.
  - apply (f_equal String.length) in H. simpl in H. rewrite append_length in H. lia.
  - injection H as -> H. destruct (IH _ H Hlen) as [-> ->]. auto.
Qed.

Lemma file_name_inj (dir pid1 pid2 suffix ext1 ext2 : string) :
  file_name dir pid1 suffix ext1 = file_name dir pid2 suffix ext2 ->
  String.length ext1 = String.length ext2 ->
  pid1 = pid2.
Proof.
  unfold file_name. intros H Hlen.
  apply append_inv_head in H. injection H as H.
  apply append_inv_tail in H; [|rewrite !append_length; lia].
  destruct H as [H _].
  destruct (String.eqb_spec pid1 "") as [->|H1], (String.eqb_spec pid2 "") as [->|H2].
  - reflexivity.
  - apply (f_equal String.length) in H. rewrite append_length in H. simpl in H. lia.
  - apply (f_equal String.length) in H. rewrite append_length in H. simpl in H. lia.
  - now apply append_inv_tail in H.
Qed.

Lemma writes_one_of (Q : file_event -> Prop) evs fname :
  Forall Q evs -> writes evs fname -> exists ev, Q ev /\ target ev = Some fname.
Proof.
  intros Hall (ev & Hin & Htarget). exists ev. split; [|exact Htarget].
  rewrite Forall_forall in Hall. now apply Hall, list_elem_of_In.
Qed.

Ltac written_by Hevents Hadd Hw :=
  let evs' := fresh "evs" in
  let Hadd' := fresh "Hadd" in
  let Hall := fresh "Hall" in
  let ev := fresh "ev" in
  let Hq := fresh "Hq" in
  let Ht := fresh "Ht" in
  destruct Hevents as (evs' & Hadd' & Hall);
  rewrite (adds_unique _ _ _ _ Hadd Hadd') in Hw;
  destruct (writes_one_of _ _ _ Hall Hw) as (ev & Hq & Ht);
  cbn beta in Hq;
  repeat match type of Hq with
         | _ \/ _ => destruct Hq as [Hq|Hq]
         | _ /\ _ => destruct Hq as [Hq _]
         end;
  subst ev; cbn in Ht; try discriminate Ht; injection Ht as Ht; clear Hadd' Hall.

(** X20.  The files of two participants never coincide: when
    [save_clean], [save_df] (with one suffix), [save_epochs],
    [save_evokeds] or [save_report] are run for two participants with
    the same output directory and a file is written by both runs, the
    two participant identifiers are the same. *)
Theorem participants_files_apart (dir pid1 pid2 fname : string) :
  (forall raw1 raw2 s1 s2 evs1 evs2,
     adds (save_clean raw1 dir pid1) s1 evs1 -> adds (save_clean raw2 dir pid2) s2 evs2 ->
     writes evs1 fname -> writes evs2 fname -> pid1 = pid2)
  /\ (forall df1 df2 suffix s1 s2 evs1 evs2,
     adds (save_df df1 dir pid1 suffix) s1 evs1 ->
     adds (save_df df2 dir pid2 suffix) s2 evs2 ->
     writes evs1 fname -> writes evs2 fname -> pid1 = pid2)
  /\ (forall epochs1 epochs2 to_df1 to_df2 s1 s2 evs1 evs2,
     adds (save_epochs epochs1 dir pid1 to_df1) s1 evs1 ->
     adds (save_epochs epochs2 dir pid2 to_df2) s2 evs2 ->
     writes evs1 fname -> writes evs2 fname -> pid1 = pid2)
  /\ (forall evokeds1 evokeds2 df1 df2 to_df1 to_df2 s1 s2 evs1 evs2,
     adds (save_evokeds evokeds1 df1 dir pid1 to_df1) s1 evs1 ->
     adds (save_evokeds evokeds2 df2 dir pid2 to_df2) s2 evs2 ->
     writes evs1 fname -> writes evs2 fname -> pid1 = pid2)
  /\ (forall raw1 raw2 ica1 ica2 clean1 clean2 events1 events2 id1 id2
             epochs1 epochs2 evokeds1 evokeds2 s1 s2 evs1 evs2,
     adds (save_report raw1 ica1 clean1 events1 id1 epochs1 evokeds1 dir pid1) s1 evs1 ->
     adds (save_report raw2 ica2 clean2 events2 id2 epochs2 evokeds2 dir pid2) s2 evs2 ->
     writes evs1 fname -> writes evs2 fname -> pid1 = pid2).
Proof.
  split; [|split; [|split; [|split]]].
  - intros raw1 raw2 s1 s2 evs1 evs2 Ha1 Ha2 Hw1 Hw2.
    written_by (save_clean_events raw1 dir pid1 s1) Ha1 Hw1.
    written_by (save_clean_events raw2 dir pid2 s2) Ha2 Hw2.
    subst fname. symmetry in Ht0. now apply file_name_inj in Ht0.
  - intros df1 df2 suffix s1 s2 evs1 evs2 Ha1 Ha2 Hw1 Hw2.
    written_by (save_df_events df1 dir pid1 suffix s1) Ha1 Hw1.
    written_by (save_df_events df2 dir pid2 suffix s2) Ha2 Hw2.
    subst fname. symmetry in Ht0. now apply file_name_inj in Ht0.
  - intros epochs1 epochs2 to_df1 to_df2 s1 s2 evs1 evs2 Ha1 Ha2 Hw1 Hw2.
    written_by (save_epochs_events epochs1 dir pid1 to_df1 s1) Ha1 Hw1;
      written_by (save_epochs_events epochs2 dir pid2 to_df2 s2) Ha2 Hw2;
      subst fname; symmetry in Ht0; now apply file_name_inj in Ht0.
  - intros evokeds1 evokeds2 df1 df2 to_df1 to_df2 s1 s2 evs1 evs2 Ha1 Ha2 Hw1 Hw2.
    written_by (save_evokeds_events evokeds1 df1 dir pid1 to_df1 s1) Ha1 Hw1;
      written_by (save_evokeds_events evokeds2 df2 dir pid2 to_df2 s2) Ha2 Hw2;
      subst fname; symmetry in Ht0; now apply file_name_inj in Ht0.
  - intros raw1 raw2 ica1 ica2 clean1 clean2 events1 events2 id1 id2
      epochs1 epochs2 evokeds1 evokeds2 s1 s2 evs1 evs2 Ha1 Ha2 Hw1 Hw2.
    written_by (save_report_events raw1 ica1 clean1 events1 id1 epochs1 evokeds1 dir pid1 s1)
      Ha1 Hw1.
    written_by (save_report_events raw2 ica2 clean2 events2 id2 epochs2 evokeds2 dir pid2 s2)
      Ha2 Hw2.
    subst fname. apply append_inv_head in Ht0. injection Ht0 as Ht0.
    now apply append_inv_tail in Ht0.
Qed.

End SaverFacts.

(** ** The further properties on sample collaborators *)


Lemma explicit_channels_snapshot_untouched_witness :
  st_heap (fst (participant_pipeline (C := Sample.collaborators ["Fp2"]) 1
                  (with_bad_channels (VStr "Fp1") Sample.arguments)
                  (Sample.start ["Fp2"]))) !! 0%nat
  = Some (locals (with_bad_channels (VStr "Fp1") Sample.arguments)).
Proof.
  apply (explicit_channels_snapshot_untouched (C := Sample.collaborators ["Fp2"]) 0
           (with_bad_channels (VStr "Fp1") Sample.arguments) (Sample.start ["Fp2"])
           tt tt tt 0%nat).
  - reflexivity.
  - vm_compute. reflexivity.
Defined.

Lemma restart_snapshots_witness :
  st_heap (fst (participant_pipeline (C := Sample.collaborators ["Fp1"]) 2
                  Sample.arguments (Sample.start ["Fp1"])))
  = [locals (with_bad_channels (VList [VStr "Fp1"]) Sample.arguments);
     locals (with_bad_channels (VList [VStr "Fp1"]) Sample.arguments)].
Proof.
  destruct (sample_first_part ["Fp1"]) as (st1 & fr & Hfirst & Hdet).
  destruct (restart_snapshots (C := Sample.collaborators ["Fp1"]) 0
              Sample.arguments (Sample.start ["Fp1"]) st1 fr eq_refl Hfirst)
    as (Hheap & _).
  - rewrite Hdet. discriminate.
  - rewrite Hdet in Hheap. exact Hheap.
Defined.

Lemma bad_channels_of_wrong_type_witness :
  snd (interpolate_bad_channels (C := Sample.collaborators []) tt (VInt 3) (Sample.start []))
  = Raises TypeError.
Proof.
  rewrite (bad_channels_of_wrong_type (C := Sample.collaborators []) tt (VInt 3)
             (Sample.start []) eq_refl eq_refl eq_refl).
  reflexivity.
Defined.

Lemma triggers_errors_witness :
  snd (resolve_events (C := Sample.collaborators []) tt
         (VDict [("Stimulus/S  1", VInt 11); ("Stimulus/S  2", VStr "12")])
         (Sample.start []))
  = Raises TypeError.
Proof.
  assert (Hann : events_from_annotations (Collaborators := Sample.collaborators []) tt
                   "Stimulus" (st_world (Sample.start []))
                 = (["events_from_annotations"], Ok (tt, [("Stimulus/S  1", 1%Z)])))
    by reflexivity.
  destruct (triggers_errors (C := Sample.collaborators []) tt
              (Sample.start []) tt _ _ Hann) as [_ H].
  assert (Hbefore : Forall (fun kv => exists z, Sample.int_of (snd kv) = Ok z)
                      [("Stimulus/S  1", VInt 11)])
    by (repeat constructor; now exists 11%Z).
  pose proof (H [("Stimulus/S  1", VInt 11)] "Stimulus/S  2" (VStr "12") [] TypeError
                Hbefore eq_refl) as Hr.
  cbn [app] in Hr. rewrite Hr. reflexivity.
Defined.

Lemma to_df_selects_the_formats_witness :
  Io.adds (P := Io.quiet) (Io.save_epochs (P := Io.quiet) tt "out" "S01" (VStr "both")) (tt, [])
    [Io.Makedirs "out"; Io.Makedirs "out"; Io.ToCsv "out/S01_epo.csv";
     Io.EpochsSave "out/S01_epo.fif"]
  /\ [Io.Makedirs "out"; Io.Makedirs "out"; Io.ToCsv "out/S01_epo.csv";
      Io.EpochsSave "out/S01_epo.fif"]
     = Io.formats_written "out" "S01" "epo" Io.EpochsSave (VStr "both").
Proof.
  assert (Hadd : Io.adds (P := Io.quiet)
                   (Io.save_epochs (P := Io.quiet) tt "out" "S01" (VStr "both")) (tt, [])
                   [Io.Makedirs "out"; Io.Makedirs "out"; Io.ToCsv "out/S01_epo.csv";
                    Io.EpochsSave "out/S01_epo.fif"]) by reflexivity.
  split; [exact Hadd|].
  exact (proj2 (proj1 (to_df_selects_the_formats (P := Io.quiet) "out" "S01" (VStr "both"))
                  tt (tt, []) _ Hadd) eq_refl).
Defined.
